(** * The business layer of Kiali: shared process state and the mTLS status service

  A shallow embedding of [business/layer.go] (the package variables, the
  one-time start-up, the cache queries, the Jaeger loader) and of
  [business/tls.go] (the mesh-wide and namespace-wide mTLS status and the
  resolution of the auto-mTLS flag), and of the login dispatcher of the web
  console with its four login strategies.

  Go packages are Rocq modules.  A struct is a record, an interface value is
  a record holding the behaviour of the methods that the code calls, and a
  nil pointer or nil interface is [None].  A Go function that reads or
  writes package variables, or that calls out of the package, is a
  computation in the monad [M]: it threads the package variables, appends
  every outgoing call to a trace, and either returns or panics. *)

From stdpp Require Import base option strings list gmap.

Local Open Scope string_scope.

(** Go's [error] interface: a non-nil error carries its message, the nil
  error is [None] of [option error]. *)
Definition error := string.

(** ** The packages that [business] imports

  Only their declarations are used by the two source files; each type below
  has the fields that the source reads or writes. *)

Module api.
(** [k8s.io/client-go/tools/clientcmd/api.AuthInfo]: the source reads
    [authInfo.Token]. *)
Record AuthInfo := mkAuthInfo { Token : string }.
End api.

Module core_v1.
Record ConfigMap := mkConfigMap {
  Namespace : string;
  Name : string;
  Data : gmap string string
}.
End core_v1.

Module security_v1beta1.
Record PeerAuthentication := mkPeerAuthentication {
  Namespace : string;
  Name : string
}.
End security_v1beta1.

Module networking_v1alpha3.
Record DestinationRule := mkDestinationRule {
  Namespace : string;
  Name : string
}.
End networking_v1alpha3.

Module models.
Record Namespace := mkNamespace { Name : string }.

(** Modelled from the spec: [models.MTLSStatus] is declared outside the
    source files at hand.  Section 3 of the specification describes it as
    a value object with an optional namespace and a status label; the
    source only ever writes the [Status] field. *)
Record MTLSStatus := mkMTLSStatus {
  Namespace_tag : option string;
  Status : string
}.

(** The composite literal [models.MTLSStatus{}]: every field at its zero
    value. *)
Definition zero : MTLSStatus :=
  {| Namespace_tag := None; Status := "" |}.
End models.

Module mtls.
(** [mtls.MtlsStatus], the input of the scoring capability, with the fields
    that the composite literals of [tls.go] set. *)
Record MtlsStatus := mkMtlsStatus {
  Namespace : string;
  PeerAuthentications : list security_v1beta1.PeerAuthentication;
  DestinationRules : list networking_v1alpha3.DestinationRule;
  AutoMtlsEnabled : bool;
  AllowPermissive : bool
}.

(** What [MeshMtlsStatus] and [NamespaceMtlsStatus] return; the source
    reads [OverallStatus]. *)
Record TlsStatus := mkTlsStatus { OverallStatus : string }.
End mtls.

Module config.
(** [config.Config] restricted to the settings read by the two source
    files.  Nested structs are flattened; [AllNamespacesAccessible] is a
    method of the configuration whose body is outside the source files, so
    its value is a field here. *)
Record Config := mkConfig {
  IstioNamespace : string;
  RootNamespace : string;            (* ExternalServices.Istio.RootNamespace *)
  ConfigMapName : string;            (* ExternalServices.Istio.ConfigMapName *)
  CacheEnabled : bool;               (* KubernetesConfig.CacheEnabled *)
  ExcludeWorkloads : list string;    (* KubernetesConfig.ExcludeWorkloads *)
  AllNamespacesAccessible : bool
}.

(** Modelled from the spec: [config.IsRootNamespace] is declared outside
    the source files at hand.  The specification (4.5 and the glossary)
    reads it as "the given namespace IS the root namespace", the designated
    namespace of the configuration. *)
Definition IsRootNamespace (cfg : Config) (namespace : string) : bool :=
  bool_decide (namespace = RootNamespace cfg).
End config.

Module kubernetes.
(** [kubernetes.ClientInterface]: the one method the source calls. *)
Record ClientInterface := mkClient {
  GetConfigMap : string → string → option core_v1.ConfigMap * option error
}.

(** [kubernetes.ClientFactory]; the maps are keyed by cluster name. *)
Record ClientFactory := mkClientFactory {
  GetClients : api.AuthInfo → gmap string ClientInterface * option error;
  GetSAClients : gmap string ClientInterface
}.

(** Modelled from the spec: [kubernetes.IstioMeshConfig] and its reader
    [GetEnableAutoMtls] are declared outside the source files at hand; 4.6
    of the specification has the resolver "parse the auto-mTLS boolean
    field". *)
Record IstioMeshConfig := mkIstioMeshConfig { EnableAutoMtls : bool }.
Definition GetEnableAutoMtls (mc : IstioMeshConfig) : bool := EnableAutoMtls mc.

(** Modelled from the spec: [kubernetes.FilterPeerAuthenticationByNamespace]
    is declared outside the source files at hand; 4.5 of the specification:
    "filters peer-authentication objects to those living in" the given
    namespace. *)
Definition FilterPeerAuthenticationByNamespace (namespace : string)
    (pas : list security_v1beta1.PeerAuthentication)
    : list security_v1beta1.PeerAuthentication :=
  filter (λ pa, security_v1beta1.Namespace pa = namespace) pas.

(** Modelled from the spec: [kubernetes.FilterDestinationRulesByNamespaces]
    is declared outside the source files at hand; 4.5 of the specification:
    "filters destination rules to the given namespace set". *)
Definition FilterDestinationRulesByNamespaces (namespaces : list string)
    (drs : list networking_v1alpha3.DestinationRule)
    : list networking_v1alpha3.DestinationRule :=
  filter (λ dr, networking_v1alpha3.Namespace dr ∈ namespaces) drs.
End kubernetes.

Module cache.
(** [cache.KialiCache]: the methods the source calls on the global cache
    handle.  [Stop] has no result; its call is visible in the trace. *)
Record KialiCache := mkKialiCache {
  CheckNamespace : string → bool;
  CheckIstioResource : string → bool;
  GetConfigMap : string → string → option core_v1.ConfigMap * option error
}.
End cache.

Module jaeger.
(** A tracing client is an opaque handle. *)
Inductive ClientInterface := Client (handle : string).
End jaeger.

Module prometheus.
(** A metrics client is an opaque handle. *)
Inductive ClientInterface := Client (handle : string).
End prometheus.

(** ** The login dispatcher of the web console

    [LoginDispatcher] and its four strategies.  An [async] function is a
    function to the way its promise settles; the functions that read or
    replace the address of the page also take and return the location.  The
    three seconds that [prepare] waits before it gives up are not part of
    the model. *)

Module login.

(** The members of [AuthResult] and the keys of [AuthStrategy] that the file
    uses; both enumerations are declared in [types/Auth]. *)
Inductive AuthResult := CONTINUE | FAILURE | HOLD | SUCCESS.
Inductive AuthStrategy := anonymous | openshift | token | openid | header.

#[global] Instance AuthStrategy_eq_dec : EqDecision AuthStrategy.
Proof. solve_decision. Defined.

Record AuthConfig := mkAuthConfig {
  strategy : AuthStrategy;
  authorizationEndpoint : option string
}.

Record LoginSession := mkLoginSession { username : string; expiresOn : string }.

(** What a promise is rejected with: a value of the backend or of the
    runtime, or the object [{ status, error }] that the dispatcher builds. *)
Inductive Reason :=
| Value (v : string)
| Failed (status : AuthResult) (error : Reason).

Inductive Promise (A : Type) :=
| Resolved (a : A)
| Rejected (reason : Reason).
Arguments Resolved {A} a.
Arguments Rejected {A} reason.

(** A [LoginResult] that a promise resolves with; [error] is only set in
    rejections, which are [Reason]s. *)
Record LoginResult := mkLoginResult {
  status : AuthResult;
  session : option LoginSession
}.

Record WebLoginData := mkWebLoginData { data_username : string; data_password : string }.

(** The argument of [API.login]. *)
Record Credentials := mkCredentials {
  login_username : string;
  login_password : string;
  login_token : string
}.

(** [window.location]. *)
Record Location := mkLocation { hash : string; pathname : string; search : string }.

(** What the file imports and calls: the backend ([API.login] and
    [API.checkOpenshiftAuth], each settled to the [data] of its response or
    to a rejection), the name of the anonymous user, and the clock
    ([moment().add(1, 'd').toISOString()]). *)
Record Api := mkApi {
  ANONYMOUS_USER : string;
  API_login : Credentials → Promise LoginSession;
  API_checkOpenshiftAuth : string → Promise LoginSession;
  tomorrow : string
}.

(** [/[#&](access_token|id_token)=/.test(s)]: somewhere in [s] there is a
    [#] or a [&] followed by [access_token=] or [id_token=]. *)
Definition is_separator (c : Ascii.ascii) : bool :=
  String.eqb (String c "") "#" || String.eqb (String c "") "&".

Fixpoint pattern_test (s : string) : bool :=
  match s with
  | EmptyString => false
  | String c rest =>
      (is_separator c &&
       (String.prefix "access_token=" rest || String.prefix "id_token=" rest))
      || pattern_test rest
  end.

(** [!info.authorizationEndpoint]: an endpoint that is missing or empty. *)
Definition falsy (endpoint : option string) : bool :=
  match endpoint with
  | None | Some EmptyString => true
  | Some _ => false
  end.

(** [s.substring(1)]. *)
Definition substring_1 (s : string) : string :=
  match s with
  | EmptyString => EmptyString
  | String _ rest => rest
  end.

(** [window.history.replaceState('', document.title, pathname + search)]:
    the address keeps its path and its query and loses its fragment. *)
Definition replaceState (w : Location) : Location :=
  {| hash := ""; pathname := pathname w; search := search w |}.

Inductive LoginStrategy := AnonymousLogin | TokenLogin | HeaderLogin | OAuthLogin.

(** The [prepare] methods of the four classes. *)
Definition strategy_prepare (st : LoginStrategy) (info : AuthConfig) (w : Location)
    : Promise AuthResult :=
  match st with
  | AnonymousLogin | TokenLogin | HeaderLogin => Resolved CONTINUE
  | OAuthLogin =>
      if falsy (authorizationEndpoint info) then Resolved FAILURE
      else if pattern_test (hash w) then Resolved CONTINUE
      else Resolved HOLD
  end.

(** The [perform] methods of the four classes.  An [await] of a rejected
    promise throws, which rejects the method's own promise with the same
    reason and skips the rest of the body. *)
Definition strategy_perform (api : Api) (st : LoginStrategy) (data : WebLoginData)
    (w : Location) : Promise LoginResult * Location :=
  match st with
  | AnonymousLogin =>
      (Resolved {| status := FAILURE;
                   session := Some {| username := ANONYMOUS_USER api;
                                      expiresOn := tomorrow api |} |}, w)
  | TokenLogin =>
      match API_login api {| login_username := ""; login_password := "";
                             login_token := data_password data |} with
      | Resolved s => (Resolved {| status := SUCCESS; session := Some s |}, w)
      | Rejected r => (Rejected r, w)
      end
  | HeaderLogin =>
      match API_login api {| login_username := ""; login_password := "";
                             login_token := "" |} with
      | Resolved s => (Resolved {| status := SUCCESS; session := Some s |}, w)
      | Rejected r => (Rejected r, w)
      end
  | OAuthLogin =>
      match API_checkOpenshiftAuth api (substring_1 (hash w)) with
      | Resolved s => (Resolved {| status := SUCCESS; session := Some s |}, replaceState w)
      | Rejected r => (Rejected r, w)
      end
  end.

(** The map that the constructor of [LoginDispatcher] fills, newest entry
    first, and [Map.get]. *)
Definition strategyMapping : list (AuthStrategy * LoginStrategy) :=
  [(header, HeaderLogin); (openid, OAuthLogin); (token, TokenLogin);
   (openshift, OAuthLogin); (anonymous, AnonymousLogin)].

Definition Map_get (key : AuthStrategy) : option LoginStrategy :=
  snd <$> List.find (λ entry, bool_decide (entry.1 = key)) strategyMapping.

(** [LoginDispatcher.prepare].  The rejection for [HOLD] is returned, not
    awaited, inside the [try]: it is not caught.  A strategy that the map
    does not hold makes the call inside the [try] throw. *)
Definition prepare (info : AuthConfig) (w : Location) : Promise AuthResult :=
  match Map_get (strategy info) with
  | None => Rejected (Failed FAILURE (Value "TypeError"))
  | Some st =>
      match strategy_prepare st info w with
      | Resolved HOLD =>
          Rejected (Failed FAILURE
                      (Value "Failed to redirect user to authentication page."))
      | Resolved result => Resolved result
      | Rejected error => Rejected (Failed FAILURE error)
      end
  end.

(** [LoginDispatcher.perform]: the strategy's promise is awaited inside the
    [try], so its rejection is caught and wrapped. *)
Definition perform (api : Api) (info : AuthConfig) (data : WebLoginData) (w : Location)
    : Promise LoginResult * Location :=
  match Map_get (strategy info) with
  | None => (Rejected (Failed FAILURE (Value "TypeError")), w)
  | Some st =>
      match strategy_perform api st data w with
      | (Resolved result, w') => (Resolved result, w')
      | (Rejected error, w') => (Rejected (Failed FAILURE error), w')
      end
  end.

(** The strategies that log in through an OAuth redirect. *)
Definition is_oauth (key : AuthStrategy) : bool :=
  bool_decide (key = openshift) || bool_decide (key = openid).

(** A backend that accepts the token [good] and nothing else, and a page
    that came back from the OAuth redirect. *)
Definition backend : Api :=
  {| ANONYMOUS_USER := "anonymous";
     API_login := λ c,
       if String.eqb (login_token c) "good"
       then Resolved {| username := "alice"; expiresOn := "2030-01-01T00:00:00.000Z" |}
       else Rejected (Value "401");
     API_checkOpenshiftAuth := λ fragment,
       if String.eqb fragment "access_token=good&expires_in=86400"
       then Resolved {| username := "alice"; expiresOn := "2030-01-01T00:00:00.000Z" |}
       else Rejected (Value "401");
     tomorrow := "2030-01-02T00:00:00.000Z" |}.

Definition redirected (token : string) : Location :=
  {| hash := "#access_token=" +:+ token +:+ "&expires_in=86400";
     pathname := "/console/"; search := "?lang=en" |}.

Definition openshift_config : AuthConfig :=
  {| strategy := openshift; authorizationEndpoint := Some "https://oauth.example/authorize" |}.

End login.

(** ** Package [business] *)

Module business.

(** *** Structs of the package *)

Record IstioConfigCriteria := mkCriteria {
  AllNamespaces : bool;
  IncludeDestinationRules : bool;
  IncludePeerAuthentications : bool
}.

(** [models.IstioConfigList], kept here beside the criteria that select
    it. *)
Record IstioConfigList := mkIstioConfigList {
  DestinationRules : list networking_v1alpha3.DestinationRule;
  PeerAuthentications : list security_v1beta1.PeerAuthentication
}.

Record IstioConfigService := mkIstioConfigService {
  IstioConfigService_k8s : option kubernetes.ClientInterface
}.

(** A namespace service is built by [NewNamespaceService]; the source
    calls [GetNamespaces] on it. *)
Record NamespaceService := mkNamespaceService {
  GetNamespaces : list models.Namespace * option error
}.

(** [TLSService].  The field [businessLayer *Layer] points back at the
    [Layer] that holds the service; the methods that go through it take
    that layer as their parameter [businessLayer]. *)
Record TLSService := mkTLSService {
  k8s : option kubernetes.ClientInterface;
  enabledAutoMtls : option bool
}.

(** *** The trace of outgoing calls *)

Inductive Event :=
| Call_GetClientFactory
| Call_GetClients (authInfo : api.AuthInfo)
| Call_GetSAClients
| Call_GetNamespaces
| Call_GetIstioConfigList (criteria : IstioConfigCriteria)
| Call_NewKialiCache (namespaceSeedList : list string)
| Call_CheckNamespace (namespace : string)
| Call_CheckIstioResource (resource : string)
| Call_cache_GetConfigMap (namespace name : string)
| Call_cache_Stop
| Call_k8s_GetConfigMap (namespace name : string)
| Call_GetIstioConfigMap
| Call_MeshMtlsStatus (input : mtls.MtlsStatus)
| Call_NamespaceMtlsStatus (input : mtls.MtlsStatus)
| Call_jaeger_NewClient (token : string)
| Call_prometheus_NewClient
| Log_Errorf (format : string) (err : error)
| Log_Infof (format : string).

(** *** The package variables

    [clientFactory], [jaegerClient], [kialiCache], [once] and
    [prometheusClient] are the variables of [layer.go]; [once] is the done
    flag of the [sync.Once].  [excludedWorkloads] is a variable of the same
    package that [initKialiCache] fills.  [trace] is the ghost record of
    the calls made so far, oldest first. *)
Record State := mkState {
  clientFactory : option kubernetes.ClientFactory;
  jaegerClient : option jaeger.ClientInterface;
  kialiCache : option cache.KialiCache;
  once : bool;
  prometheusClient : option prometheus.ClientInterface;
  excludedWorkloads : option (gmap string bool);
  trace : list Event
}.

(** The process as the Go runtime starts it: every package variable at its
    zero value. *)
Definition process_start : State :=
  mkState None None None false None None [].

Definition set_clientFactory (v : option kubernetes.ClientFactory) (s : State) : State :=
  mkState v (jaegerClient s) (kialiCache s) (once s) (prometheusClient s)
          (excludedWorkloads s) (trace s).
Definition set_jaegerClient (v : option jaeger.ClientInterface) (s : State) : State :=
  mkState (clientFactory s) v (kialiCache s) (once s) (prometheusClient s)
          (excludedWorkloads s) (trace s).
Definition set_kialiCache (v : option cache.KialiCache) (s : State) : State :=
  mkState (clientFactory s) (jaegerClient s) v (once s) (prometheusClient s)
          (excludedWorkloads s) (trace s).
Definition set_once (v : bool) (s : State) : State :=
  mkState (clientFactory s) (jaegerClient s) (kialiCache s) v (prometheusClient s)
          (excludedWorkloads s) (trace s).
Definition set_prometheusClient (v : option prometheus.ClientInterface) (s : State) : State :=
  mkState (clientFactory s) (jaegerClient s) (kialiCache s) (once s) v
          (excludedWorkloads s) (trace s).
Definition set_excludedWorkloads (v : option (gmap string bool)) (s : State) : State :=
  mkState (clientFactory s) (jaegerClient s) (kialiCache s) (once s)
          (prometheusClient s) v (trace s).
Definition record_event (e : Event) (s : State) : State :=
  mkState (clientFactory s) (jaegerClient s) (kialiCache s) (once s)
          (prometheusClient s) (excludedWorkloads s) (trace s ++ [e]).

(** *** The monad of package functions *)

Inductive Outcome (A : Type) :=
| Returns (a : A) (s : State)
| Panics (s : State).
Arguments Returns {A} a s.
Arguments Panics {A} s.

Definition M (A : Type) : Type := State → Outcome A.

#[global] Instance M_ret : MRet M := λ A a s, Returns a s.
#[global] Instance M_bind : MBind M := λ A B f m s,
  match m s with
  | Returns a s' => f a s'
  | Panics s' => Panics s'
  end.

Definition final_state {A} (o : Outcome A) : State :=
  match o with Returns _ s => s | Panics s => s end.

Definition read {A} (var : State → A) : M A := λ s, Returns (var s) s.
Definition write {A} (setter : A → State → State) (v : A) : M unit :=
  λ s, Returns tt (setter v s).
Definition panic {A} : M A := λ s, Panics s.

(** A call of a function outside the package: the call enters the trace
    and the callee's answer comes back. *)
Definition call {A} (e : Event) (answer : A) : M A :=
  λ s, Returns answer (record_event e s).

(** A method call through an interface value or pointer: a nil receiver
    panics (nil dereference), otherwise it is a [call]. *)
Definition invoke {I A} (receiver : option I) (e : Event) (method : I → A) : M A :=
  match receiver with
  | None => panic
  | Some i => call e (method i)
  end.

(** A method call on the package variable [kialiCache]. *)
Definition on_kialiCache {A} (e : Event) (method : cache.KialiCache → A) : M A :=
  λ s, invoke (kialiCache s) e method s.

(** [sync.Once.Do]: [f] runs only while the done flag is unset, and the
    flag is set when [f] is over, also when [f] panics (the store is
    deferred). *)
Definition once_Do (f : M unit) : M unit := λ s,
  if once s then Returns tt s
  else match f s with
       | Returns _ s' => Returns tt (set_once true s')
       | Panics s' => Panics (set_once true s')
       end.

Definition JaegerLoader : Type :=
  M (option jaeger.ClientInterface * option error).

Record JaegerService := mkJaegerService { loader : JaegerLoader }.

(** [Layer], with the services that the functions below build or reach.
    The other services of the struct only hold clients and the layer
    itself, and no function here calls them. *)
Record Layer := mkLayer {
  IstioConfig : IstioConfigService;
  Jaeger : JaegerService;
  k8sClients : gmap string kubernetes.ClientInterface;
  Namespace : NamespaceService;
  TLS : TLSService
}.

(** *** What the package calls but does not define

    Functions and constants of the imported packages, and methods of this
    package whose bodies are in other files, as they answer during one
    call of a function of [layer.go] or [tls.go]. *)
Record Env := mkEnv {
  config_Get : config.Config;
  kubernetes_HomeClusterName : string;
  kubernetes_GetClientFactory : option kubernetes.ClientFactory * option error;
  kubernetes_GetIstioConfigMap :
    option core_v1.ConfigMap → kubernetes.IstioMeshConfig * option error;
  cache_NewKialiCache :
    option kubernetes.ClientFactory → config.Config → list string →
    option cache.KialiCache * option error;
  jaeger_NewClient : string → option jaeger.ClientInterface * option error;
  prometheus_NewClient : option prometheus.ClientInterface * option error;
  NewNamespaceService :
    gmap string kubernetes.ClientInterface →
    gmap string kubernetes.ClientInterface → NamespaceService;
  GetIstioConfigList :
    IstioConfigService → IstioConfigCriteria → IstioConfigList * option error;
  MeshMtlsStatus : mtls.MtlsStatus → mtls.TlsStatus;
  NamespaceMtlsStatus : mtls.MtlsStatus → mtls.TlsStatus
}.

(** *** [layer.go] *)

Section WithEnv.
Context (env : Env).

(** [initKialiCache]: sets the global kiali cache var.  Each [return] of the
    source after a failed step is the branch that ends in [log_Errorf]
    without a write to [kialiCache]. *)
Definition namespaceSeed (cfg : config.Config)
    : M (option (list string)) :=
  if negb (config.AllNamespacesAccessible cfg) then
    cf ← read clientFactory;
    SAClients ← invoke cf Call_GetSAClients kubernetes.GetSAClients;
    let initNamespaceService := NewNamespaceService env SAClients SAClients in
    '(nss, err) ← call Call_GetNamespaces (GetNamespaces initNamespaceService);
    match err with
    | Some e =>
        call (Log_Errorf "Error fetching initial namespaces for populating the Kiali Cache. Details: %s" e) tt;;
        mret None
    | None =>
        mret (Some (foldl (λ namespaceSeedList ns, (namespaceSeedList ++ [models.Name ns])%list) [] nss))
    end
  else mret (Some []).

Definition initKialiCache : M unit :=
  let cfg := config_Get env in
  ew ← read excludedWorkloads;
  (if ew is None then
     write set_excludedWorkloads
       (Some (foldl (λ m w, <[w:=true]> m) ∅ (config.ExcludeWorkloads cfg)))
   else mret tt);;
  '(userClient, err) ← call Call_GetClientFactory (kubernetes_GetClientFactory env);
  match err with
  | Some e => call (Log_Errorf "Failed to create client factory. Err: %s" e) tt
  | None =>
      write set_clientFactory userClient;;
      if config.CacheEnabled cfg then
        call (Log_Infof "Initializing Kiali Cache") tt;;
        seed ← namespaceSeed cfg;
        match seed with
        | None => mret tt
        | Some namespaceSeedList =>
            cf ← read clientFactory;
            '(cache, err) ← call (Call_NewKialiCache namespaceSeedList)
                                 (cache_NewKialiCache env cf cfg namespaceSeedList);
            match err with
            | Some e => call (Log_Errorf "Error initializing Kiali Cache. Details: %s" e) tt
            | None => write set_kialiCache cache
            end
        end
      else mret tt
  end.

(** [kialiCache != nil && kialiCache.CheckNamespace(namespace)]: the right
    operand is evaluated only when the handle is set. *)
Definition IsNamespaceCached (namespace : string) : M bool :=
  kc ← read kialiCache;
  match kc with
  | None => mret false
  | Some c => call (Call_CheckNamespace namespace) (cache.CheckNamespace c namespace)
  end.

Definition IsResourceCached (namespace resource : string) : M bool :=
  ok ← IsNamespaceCached namespace;
  if ok && bool_decide (resource ≠ "") then
    on_kialiCache (Call_CheckIstioResource resource)
                  (λ c, cache.CheckIstioResource c resource)
  else mret ok.

Definition Start : M unit := once_Do initKialiCache.

Definition Stop : M unit :=
  kc ← read kialiCache;
  match kc with
  | Some c => call Call_cache_Stop tt
  | None => mret tt
  end.

(** The closure [jaegerLoader] that [Get] builds: it captures [authInfo]
    and shares the package variable [jaegerClient]. *)
Definition jaegerLoader (authInfo : api.AuthInfo) : JaegerLoader :=
  jc ← read jaegerClient;
  match jc with
  | None =>
      '(c, err) ← call (Call_jaeger_NewClient (api.Token authInfo))
                       (jaeger_NewClient env (api.Token authInfo));
      write set_jaegerClient c;;
      (if err is Some _ then write set_jaegerClient None else mret tt);;
      jc' ← read jaegerClient;
      mret (jc', err)
  | Some _ => mret (jc, None)
  end.

(** [NewWithBackends], for the services of [Layer] kept above. *)
Definition NewWithBackends
    (userClients kialiSAClients : gmap string kubernetes.ClientInterface)
    (prom : option prometheus.ClientInterface) (jaegerClient : JaegerLoader) : Layer :=
  {| IstioConfig := {| IstioConfigService_k8s := userClients !! kubernetes_HomeClusterName env |};
     Jaeger := {| loader := jaegerClient |};
     k8sClients := userClients;
     Namespace := NewNamespaceService env userClients kialiSAClients;
     TLS := {| k8s := userClients !! kubernetes_HomeClusterName env;
               enabledAutoMtls := None |} |}.

(** [Get]: the business layer of one caller. *)
Definition Get (authInfo : api.AuthInfo) : M (option Layer * option error) :=
  cf ← read clientFactory;
  '(userClients, err) ← invoke cf (Call_GetClients authInfo)
                               (λ f, kubernetes.GetClients f authInfo);
  match err with
  | Some e => mret (None, Some e)
  | None =>
      pc ← read prometheusClient;
      failed ← match pc with
               | None =>
                   '(prom, err) ← call Call_prometheus_NewClient (prometheus_NewClient env);
                   match err with
                   | Some e => write set_prometheusClient None;; mret (Some e)
                   | None => write set_prometheusClient prom;; mret None
                   end
               | Some _ => mret None
               end;
      match failed with
      | Some e => mret (None, Some e)
      | None =>
          cf ← read clientFactory;
          kialiSAClient ← invoke cf Call_GetSAClients kubernetes.GetSAClients;
          prom ← read prometheusClient;
          mret (Some (NewWithBackends userClients kialiSAClient prom (jaegerLoader authInfo)),
                None)
      end
  end.

(** *** [tls.go]

    A method with a pointer receiver ([in *TLSService]) returns the receiver
    as it leaves it.  A method with a value receiver ([in TLSService]) works
    on a copy of the service: what it writes to the copy ends with the call,
    so nothing comes back besides its results. *)

(** Lines 134 to 141 of [hasAutoMTLSEnabled]: the config map of the control
    plane, from the cache when the Istio namespace is cached, from the
    caller's client otherwise. *)
Definition lookupIstioConfig (in_ : TLSService)
    : M (option core_v1.ConfigMap * option error) :=
  let cfg := config_Get env in
  cached ← IsNamespaceCached (config.IstioNamespace cfg);
  if (cached : bool) then
    on_kialiCache
      (Call_cache_GetConfigMap (config.IstioNamespace cfg) (config.ConfigMapName cfg))
      (λ c, cache.GetConfigMap c (config.IstioNamespace cfg) (config.ConfigMapName cfg))
  else
    invoke (k8s in_)
      (Call_k8s_GetConfigMap (config.IstioNamespace cfg) (config.ConfigMapName cfg))
      (λ c, kubernetes.GetConfigMap c (config.IstioNamespace cfg) (config.ConfigMapName cfg)).

Definition hasAutoMTLSEnabled (in_ : TLSService) : M (bool * TLSService) :=
  match enabledAutoMtls in_ with
  | Some b => mret (b, in_)
  | None =>
      '(istioConfig, err) ← lookupIstioConfig in_;
      match err with
      | Some _ => mret (true, in_)
      | None =>
          '(mc, err) ← call Call_GetIstioConfigMap
                            (kubernetes_GetIstioConfigMap env istioConfig);
          match err with
          | Some _ => mret (true, in_)
          | None =>
              let autoMtls := kubernetes.GetEnableAutoMtls mc in
              mret (autoMtls, {| k8s := k8s in_; enabledAutoMtls := Some autoMtls |})
          end
      end
  end.

Definition getNamespaces (businessLayer : Layer) (in_ : TLSService)
    : M (list string * option error) :=
  '(nss, nssErr) ← call Call_GetNamespaces (GetNamespaces (Namespace businessLayer));
  match nssErr with
  | Some e => mret ([], Some e)
  | None => mret (foldl (λ nsNames ns, (nsNames ++ [models.Name ns])%list) [] nss, None)
  end.

Definition allNamespacesCriteria : IstioConfigCriteria :=
  {| AllNamespaces := true;
     IncludeDestinationRules := true;
     IncludePeerAuthentications := true |}.

Definition MeshWidemTLSStatus (businessLayer : Layer) (in_ : TLSService)
    (namespaces : list string)
    : M (models.MTLSStatus * option error * TLSService) :=
  let criteria := allNamespacesCriteria in
  '(istioConfigList, err) ← call (Call_GetIstioConfigList criteria)
                                 (GetIstioConfigList env (IstioConfig businessLayer) criteria);
  match err with
  | Some e => mret (models.zero, Some e, in_)
  | None =>
      let pas := kubernetes.FilterPeerAuthenticationByNamespace
                   (config.RootNamespace (config_Get env))
                   (PeerAuthentications istioConfigList) in
      let drs := kubernetes.FilterDestinationRulesByNamespaces namespaces
                   (DestinationRules istioConfigList) in
      '(autoMtls, in_) ← hasAutoMTLSEnabled in_;
      let mtlsStatus :=
        {| mtls.Namespace := "";
           mtls.PeerAuthentications := pas;
           mtls.DestinationRules := drs;
           mtls.AutoMtlsEnabled := autoMtls;
           mtls.AllowPermissive := false |} in
      st ← call (Call_MeshMtlsStatus mtlsStatus) (MeshMtlsStatus env mtlsStatus);
      mret ({| models.Namespace_tag := None;
               models.Status := mtls.OverallStatus st |}, None, in_)
  end.

Definition NamespaceWidemTLSStatus (businessLayer : Layer) (in_ : TLSService)
    (namespace : string) : M (models.MTLSStatus * option error) :=
  '(nss, err) ← getNamespaces businessLayer in_;
  match err with
  | Some _ => mret (models.zero, None)
  | None =>
      let criteria := allNamespacesCriteria in
      '(istioConfigList, err2) ← call (Call_GetIstioConfigList criteria)
                                      (GetIstioConfigList env (IstioConfig businessLayer) criteria);
      match err2 with
      | Some e => mret (models.zero, Some e)
      | None =>
          let pas := kubernetes.FilterPeerAuthenticationByNamespace namespace
                       (PeerAuthentications istioConfigList) in
          let pas := if config.IsRootNamespace (config_Get env) namespace
                     then [] else pas in
          let drs := kubernetes.FilterDestinationRulesByNamespaces nss
                       (DestinationRules istioConfigList) in
          '(autoMtls, _) ← hasAutoMTLSEnabled in_;
          let mtlsStatus :=
            {| mtls.Namespace := namespace;
               mtls.PeerAuthentications := pas;
               mtls.DestinationRules := drs;
               mtls.AutoMtlsEnabled := autoMtls;
               mtls.AllowPermissive := false |} in
          st ← call (Call_NamespaceMtlsStatus mtlsStatus) (NamespaceMtlsStatus env mtlsStatus);
          mret ({| models.Namespace_tag := None;
                   models.Status := mtls.OverallStatus st |}, None)
      end
  end.

End WithEnv.

(** [SetWithBackends]: the test hook that replaces the client factory and
    the Prometheus client. *)
Definition SetWithBackends (cf : option kubernetes.ClientFactory)
    (prom : option prometheus.ClientInterface) : M unit :=
  write set_clientFactory cf;;
  write set_prometheusClient prom.

(** *** [tls.go], the remaining method *)

(** The inner loop of [getAllDestinationRules]: [found] becomes true at the
    first namespace equal to the rule's, and the loop breaks there. *)
Fixpoint found_in (dr : networking_v1alpha3.DestinationRule) (namespaces : list string)
    : bool :=
  match namespaces with
  | [] => false
  | ns :: namespaces =>
      if bool_decide (networking_v1alpha3.Namespace dr = ns) then true
      else found_in dr namespaces
  end.

Definition destinationRulesCriteria : IstioConfigCriteria :=
  {| AllNamespaces := true;
     IncludeDestinationRules := true;
     IncludePeerAuthentications := false |}.

(** [getAllDestinationRules] has a pointer receiver and writes nothing to
    it. *)
Definition getAllDestinationRules (env : Env) (businessLayer : Layer) (in_ : TLSService)
    (namespaces : list string)
    : M (list networking_v1alpha3.DestinationRule * option error * TLSService) :=
  let criteria := destinationRulesCriteria in
  '(istioConfigList, err) ← call (Call_GetIstioConfigList criteria)
                                 (GetIstioConfigList env (IstioConfig businessLayer) criteria);
  match err with
  | Some e => mret ([], Some e, in_)
  | None =>
      mret (foldl (λ allDestinationRules dr,
                     if found_in dr namespaces
                     then (allDestinationRules ++ [dr])%list
                     else allDestinationRules)
                  [] (DestinationRules istioConfigList),
            None, in_)
  end.

(** *** Readings of the trace *)

(** The config-map lookups among the events, through the cache or through
    the caller's client. *)
Definition is_lookup (e : Event) : bool :=
  match e with
  | Call_cache_GetConfigMap _ _ | Call_k8s_GetConfigMap _ _ => true
  | _ => false
  end.

Definition lookups (t : list Event) : nat := length (List.filter is_lookup t).

(** The inputs handed to the scoring capability, oldest first. *)
Definition scoring_input (e : Event) : option mtls.MtlsStatus :=
  match e with
  | Call_MeshMtlsStatus ms | Call_NamespaceMtlsStatus ms => Some ms
  | _ => None
  end.

Definition scoring_inputs (t : list Event) : list mtls.MtlsStatus :=
  omap scoring_input t.

(** A state with more events at the end of its trace and the package
    variables as they were. *)
Definition add_events (evs : list Event) (s : State) : State :=
  mkState (clientFactory s) (jaegerClient s) (kialiCache s) (once s)
          (prometheusClient s) (excludedWorkloads s) (trace s ++ evs).

(** What a run added to the trace of the state it started from. *)
Definition new_events {A} (s : State) (o : Outcome A) : list Event :=
  drop (length (trace s)) (trace (final_state o)).

(** *** The operations of the package as one process runs them *)

Inductive Op :=
| Op_Start (env : Env)
| Op_Stop
| Op_IsNamespaceCached (namespace : string)
| Op_IsResourceCached (namespace resource : string)
| Op_Get (env : Env) (authInfo : api.AuthInfo)
| Op_SetWithBackends (cf : option kubernetes.ClientFactory)
                     (prom : option prometheus.ClientInterface)
| Op_jaegerLoader (env : Env) (authInfo : api.AuthInfo)
| Op_MeshWidemTLSStatus (env : Env) (businessLayer : Layer) (in_ : TLSService)
                        (namespaces : list string)
| Op_NamespaceWidemTLSStatus (env : Env) (businessLayer : Layer) (in_ : TLSService)
                             (namespace : string).

(** The state in which an operation leaves the package variables.  A panic
    of a request is recovered by its server goroutine, so the process goes
    on from the state at the panic. *)
Definition exec (op : Op) (s : State) : State :=
  match op with
  | Op_Start env => final_state (Start env s)
  | Op_Stop => final_state (Stop s)
  | Op_IsNamespaceCached ns => final_state (IsNamespaceCached ns s)
  | Op_IsResourceCached ns r => final_state (IsResourceCached ns r s)
  | Op_Get env a => final_state (Get env a s)
  | Op_SetWithBackends cf prom => final_state (SetWithBackends cf prom s)
  | Op_jaegerLoader env a => final_state (jaegerLoader env a s)
  | Op_MeshWidemTLSStatus env l in_ nss => final_state (MeshWidemTLSStatus env l in_ nss s)
  | Op_NamespaceWidemTLSStatus env l in_ ns =>
      final_state (NamespaceWidemTLSStatus env l in_ ns s)
  end.

Definition exec_all (ops : list Op) (s : State) : State :=
  foldl (λ s op, exec op s) s ops.

(** What [NamespaceWidemTLSStatus] hands to the scoring capability. *)
Definition namespace_scoring_input (env : Env) (businessLayer : Layer)
    (namespace : string) (ms : mtls.MtlsStatus) : Prop :=
  mtls.Namespace ms = namespace ∧
  mtls.PeerAuthentications ms =
    (if config.IsRootNamespace (config_Get env) namespace then []
     else kubernetes.FilterPeerAuthenticationByNamespace namespace
            (PeerAuthentications
               (GetIstioConfigList env (IstioConfig businessLayer) allNamespacesCriteria).1)) ∧
  mtls.AllowPermissive ms = false.

(** *** The ways in which the one-time setup fails

    One constructor for each [return] of [initKialiCache] that follows a
    logged error: the client factory is not built; the initial namespaces are
    not listed (namespace-scoped cache); the cache is not built, after the
    namespaces were listed or with all namespaces accessible. *)
Inductive SetupFails (env : Env) : Prop :=
| client_factory_fails cf e :
    kubernetes_GetClientFactory env = (cf, Some e) →
    SetupFails env
| namespace_listing_fails cf nss e :
    kubernetes_GetClientFactory env = (Some cf, None) →
    config.CacheEnabled (config_Get env) = true →
    config.AllNamespacesAccessible (config_Get env) = false →
    GetNamespaces (NewNamespaceService env (kubernetes.GetSAClients cf)
                                           (kubernetes.GetSAClients cf)) = (nss, Some e) →
    SetupFails env
| cache_construction_fails_scoped cf nss c e :
    kubernetes_GetClientFactory env = (Some cf, None) →
    config.CacheEnabled (config_Get env) = true →
    config.AllNamespacesAccessible (config_Get env) = false →
    GetNamespaces (NewNamespaceService env (kubernetes.GetSAClients cf)
                                           (kubernetes.GetSAClients cf)) = (nss, None) →
    cache_NewKialiCache env (Some cf) (config_Get env)
      (foldl (λ namespaceSeedList ns, (namespaceSeedList ++ [models.Name ns])%list) [] nss)
      = (c, Some e) →
    SetupFails env
| cache_construction_fails_cluster cf c e :
    kubernetes_GetClientFactory env = (cf, None) →
    config.CacheEnabled (config_Get env) = true →
    config.AllNamespacesAccessible (config_Get env) = true →
    cache_NewKialiCache env cf (config_Get env) [] = (c, Some e) →
    SetupFails env.

(** ** Scenarios

    Concrete collaborators, used to run the package functions. *)

Module scenario.

Definition cfg : config.Config :=
  {| config.IstioNamespace := "istio-system";
     config.RootNamespace := "istio-system";
     config.ConfigMapName := "istio";
     config.CacheEnabled := true;
     config.ExcludeWorkloads := ["CronJob"; "Job"];
     config.AllNamespacesAccessible := false |}.

Definition istio_config_map : core_v1.ConfigMap :=
  {| core_v1.Namespace := "istio-system";
     core_v1.Name := "istio";
     core_v1.Data := {[ "mesh" := "enableAutoMtls: false" ]} |}.

(** A client of a reachable cluster, and one whose cluster is down. *)
Definition client_up : kubernetes.ClientInterface :=
  {| kubernetes.GetConfigMap := λ _ _, (Some istio_config_map, None) |}.
Definition client_down : kubernetes.ClientInterface :=
  {| kubernetes.GetConfigMap := λ _ _, (None, Some "connection refused") |}.

Definition clients (c : kubernetes.ClientInterface)
    : gmap string kubernetes.ClientInterface :=
  {[ "home" := c ]}.

Definition factory : kubernetes.ClientFactory :=
  {| kubernetes.GetClients := λ _, (clients client_up, None);
     kubernetes.GetSAClients := clients client_up |}.

(** A cache seeded with the namespaces [bookinfo] and [istio-system] that
    holds virtual services only. *)
Definition kiali_cache : cache.KialiCache :=
  {| cache.CheckNamespace := λ ns,
       bool_decide (ns = "bookinfo") || bool_decide (ns = "istio-system");
     cache.CheckIstioResource := λ r, bool_decide (r = "VirtualService");
     cache.GetConfigMap := λ _ _, (Some istio_config_map, None) |}.

Definition pa (ns name : string) : security_v1beta1.PeerAuthentication :=
  {| security_v1beta1.Namespace := ns; security_v1beta1.Name := name |}.
Definition dr (ns name : string) : networking_v1alpha3.DestinationRule :=
  {| networking_v1alpha3.Namespace := ns; networking_v1alpha3.Name := name |}.

Definition config_list : IstioConfigList :=
  {| DestinationRules := [dr "bookinfo" "reviews"; dr "other" "ratings"];
     PeerAuthentications :=
       [pa "istio-system" "mesh-strict"; pa "default" "strict"; pa "bookinfo" "permissive"] |}.

(** A scoring capability that looks at the peer authentications only. *)
Definition score (ms : mtls.MtlsStatus) : mtls.TlsStatus :=
  {| mtls.OverallStatus :=
       if mtls.PeerAuthentications ms is [] then "MTLS_NOT_ENABLED" else "MTLS_ENABLED" |}.

Definition namespaces_up : NamespaceService :=
  {| GetNamespaces :=
       ([models.mkNamespace "bookinfo"; models.mkNamespace "default";
         models.mkNamespace "istio-system"], None) |}.
Definition namespaces_down : NamespaceService :=
  {| GetNamespaces := ([], Some "namespaces is forbidden") |}.

(** Everything answers. *)
Definition env_up : Env :=
  {| config_Get := cfg;
     kubernetes_HomeClusterName := "home";
     kubernetes_GetClientFactory := (Some factory, None);
     kubernetes_GetIstioConfigMap := λ cm,
       match cm with
       | Some m =>
           match core_v1.Data m !! "mesh" with
           | Some "enableAutoMtls: false" => (kubernetes.mkIstioMeshConfig false, None)
           | Some _ => (kubernetes.mkIstioMeshConfig true, None)
           | None => (kubernetes.mkIstioMeshConfig false, Some "mesh key not found")
           end
       | None => (kubernetes.mkIstioMeshConfig false, Some "no config map")
       end;
     cache_NewKialiCache := λ _ _ _, (Some kiali_cache, None);
     jaeger_NewClient := λ token, (Some (jaeger.Client token), None);
     prometheus_NewClient := (Some (prometheus.Client "prometheus"), None);
     NewNamespaceService := λ _ _, namespaces_up;
     GetIstioConfigList := λ _ _, (config_list, None);
     MeshMtlsStatus := score;
     NamespaceMtlsStatus := score |}.

(** The backend of the cache is out at start-up. *)
Definition env_cache_outage : Env :=
  {| config_Get := cfg;
     kubernetes_HomeClusterName := "home";
     kubernetes_GetClientFactory := (Some factory, None);
     kubernetes_GetIstioConfigMap := kubernetes_GetIstioConfigMap env_up;
     cache_NewKialiCache := λ _ _ _, (None, Some "timed out waiting for caches to sync");
     jaeger_NewClient := jaeger_NewClient env_up;
     prometheus_NewClient := prometheus_NewClient env_up;
     NewNamespaceService := NewNamespaceService env_up;
     GetIstioConfigList := GetIstioConfigList env_up;
     MeshMtlsStatus := score;
     NamespaceMtlsStatus := score |}.

(** The Istio configuration cannot be listed. *)
Definition env_listing_down : Env :=
  {| config_Get := cfg;
     kubernetes_HomeClusterName := "home";
     kubernetes_GetClientFactory := (Some factory, None);
     kubernetes_GetIstioConfigMap := kubernetes_GetIstioConfigMap env_up;
     cache_NewKialiCache := cache_NewKialiCache env_up;
     jaeger_NewClient := jaeger_NewClient env_up;
     prometheus_NewClient := prometheus_NewClient env_up;
     NewNamespaceService := NewNamespaceService env_up;
     GetIstioConfigList := λ _ _, (mkIstioConfigList [] [], Some "istio config is forbidden");
     MeshMtlsStatus := score;
     NamespaceMtlsStatus := score |}.


(** A process whose start-up built the cache, and one that runs uncached. *)
Definition cached : State :=
  mkState (Some factory) None (Some kiali_cache) true None (Some ∅) [].
Definition uncached : State :=
  mkState (Some factory) None None true None (Some ∅) [].

Definition layer (ns : NamespaceService) : Layer :=
  {| IstioConfig := {| IstioConfigService_k8s := Some client_up |};
     Jaeger := {| loader := jaegerLoader env_up (api.mkAuthInfo "alice-token") |};
     k8sClients := clients client_up;
     Namespace := ns;
     TLS := {| k8s := Some client_up; enabledAutoMtls := None |} |}.

Definition tls (c : kubernetes.ClientInterface) : TLSService :=
  {| k8s := Some c; enabledAutoMtls := None |}.

Definition alice : api.AuthInfo := api.mkAuthInfo "alice-token".
Definition bob : api.AuthInfo := api.mkAuthInfo "bob-token".

(** Every namespace is accessible, and listing namespaces would fail. *)
Definition env_cluster_wide : Env :=
  mkEnv (config.mkConfig "istio-system" "istio-system" "istio" true [] true)
        "home" (Some factory, None)
        (kubernetes_GetIstioConfigMap env_up)
        (λ _ _ _, (Some kiali_cache, None))
        (jaeger_NewClient env_up) (prometheus_NewClient env_up)
        (λ _ _, namespaces_down)
        (GetIstioConfigList env_up) score score.

(** Caching is off. *)
Definition env_cache_off : Env :=
  mkEnv (config.mkConfig "istio-system" "istio-system" "istio" false ["Job"] false)
        "home" (Some factory, None)
        (kubernetes_GetIstioConfigMap env_up)
        (cache_NewKialiCache env_up)
        (jaeger_NewClient env_up) (prometheus_NewClient env_up)
        (NewNamespaceService env_up)
        (GetIstioConfigList env_up) score score.


(** The metrics backend refuses the connection. *)
Definition env_prometheus_down : Env :=
  mkEnv cfg "home" (Some factory, None)
        (kubernetes_GetIstioConfigMap env_up) (cache_NewKialiCache env_up)
        (jaeger_NewClient env_up) (None, Some "prometheus is unreachable")
        (NewNamespaceService env_up) (GetIstioConfigList env_up) score score.


End scenario.

(** ** Properties *)

(** Unfolding of the monad, for runs on a symbolic state. *)
Ltac unfold_M :=
  unfold mbind, mret, M_bind, M_ret, on_kialiCache, invoke, read, write, call, panic in *.

Ltac run := unfold_M; simpl in *.

(** *** The cache queries *)

Lemma IsNamespaceCached_uncached namespace s :
  kialiCache s = None → IsNamespaceCached namespace s = Returns false s.
Proof. intros Hnil. unfold IsNamespaceCached. run. by rewrite Hnil. Qed.

Lemma IsNamespaceCached_cached namespace s c :
  kialiCache s = Some c →
  IsNamespaceCached namespace s =
    Returns (cache.CheckNamespace c namespace) (record_event (Call_CheckNamespace namespace) s).
Proof. intros Hc. unfold IsNamespaceCached. run. by rewrite Hc. Qed.

(** A namespace is reported cached only by a cache that is set. *)
Lemma IsNamespaceCached_true_inv namespace s s' :
  IsNamespaceCached namespace s = Returns true s' →
  ∃ c, kialiCache s = Some c ∧ cache.CheckNamespace c namespace = true ∧
       s' = record_event (Call_CheckNamespace namespace) s.
Proof.
  destruct (kialiCache s) as [c|] eqn:Hc.
  - rewrite (IsNamespaceCached_cached _ _ _ Hc). intros [= Hok <-]. eauto.
  - by rewrite (IsNamespaceCached_uncached _ _ Hc).
Qed.

(** Neither query panics: the handle is dereferenced only behind the nil
    check. *)
Lemma IsNamespaceCached_returns namespace s :
  ∃ ok s', IsNamespaceCached namespace s = Returns ok s'.
Proof.
  destruct (kialiCache s) as [c|] eqn:Hc.
  - rewrite (IsNamespaceCached_cached _ _ _ Hc). eauto.
  - rewrite (IsNamespaceCached_uncached _ _ Hc). eauto.
Qed.

Lemma IsResourceCached_returns namespace resource s :
  ∃ ok s', IsResourceCached namespace resource s = Returns ok s'.
Proof.
  unfold IsResourceCached.
  destruct (kialiCache s) as [c|] eqn:Hc.
  - unfold mbind at 1, M_bind. rewrite (IsNamespaceCached_cached _ _ _ Hc).
    destruct (cache.CheckNamespace c namespace), (bool_decide (resource ≠ "")); run;
      rewrite ?Hc; eauto.
  - unfold mbind at 1, M_bind. rewrite (IsNamespaceCached_uncached _ _ Hc). run. eauto.
Qed.

(** C2: whenever [IsResourceCached namespace resource] returns true,
    [IsNamespaceCached namespace] returns true as well, in every state of the
    package variables, the unset cache handle included. *)
Theorem IsResourceCached_only_if_IsNamespaceCached namespace resource s s' :
  IsResourceCached namespace resource s = Returns true s' →
  ∃ s'', IsNamespaceCached namespace s = Returns true s''.
Proof.
  unfold IsResourceCached, mbind at 1, M_bind.
  destruct (IsNamespaceCached namespace s) as [[] s1|s1] eqn:Hns; [eauto| |done].
  run. by intros [= ? ?].
Qed.

Lemma IsResourceCached_only_if_IsNamespaceCached_witness :
  ∃ s'', IsNamespaceCached "bookinfo" scenario.cached = Returns true s''.
Proof.
  eapply (IsResourceCached_only_if_IsNamespaceCached "bookinfo" "VirtualService").
  vm_compute. reflexivity.
Defined.

(** C10: when the membership check of [namespace] succeeds,
    [IsResourceCached namespace ""] returns true in the very state that the
    membership check leaves: the trace gained the namespace check and no
    resource-kind check. *)
Theorem IsResourceCached_empty_kind namespace s s1 :
  IsNamespaceCached namespace s = Returns true s1 →
  IsResourceCached namespace "" s = Returns true s1 ∧
  trace s1 = (trace s ++ [Call_CheckNamespace namespace])%list.
Proof.
  intros Hns. split.
  - unfold IsResourceCached, mbind, M_bind. by rewrite Hns.
  - apply IsNamespaceCached_true_inv in Hns as (c & _ & _ & ->). done.
Qed.

Lemma IsResourceCached_empty_kind_witness :
  IsResourceCached "bookinfo" "" scenario.cached =
    Returns true (record_event (Call_CheckNamespace "bookinfo") scenario.cached) ∧
  trace (record_event (Call_CheckNamespace "bookinfo") scenario.cached) =
    (trace scenario.cached ++ [Call_CheckNamespace "bookinfo"])%list.
Proof.
  apply (IsResourceCached_empty_kind "bookinfo" scenario.cached).
  reflexivity.
Defined.

(** *** Functions that only extend the trace *)

Lemma add_events_nil s : add_events [] s = s.
Proof. destruct s. unfold add_events. simpl. by rewrite app_nil_r. Qed.

Lemma add_events_app evs1 evs2 s :
  add_events evs2 (add_events evs1 s) = add_events (evs1 ++ evs2) s.
Proof. unfold add_events. simpl. by rewrite app_assoc. Qed.

Lemma record_event_add e s : record_event e s = add_events [e] s.
Proof. done. Qed.

Lemma new_events_add {A} evs s (o : Outcome A) :
  final_state o = add_events evs s → new_events s o = evs.
Proof.
  intros Hfin. unfold new_events. rewrite Hfin. simpl.
  by rewrite drop_app_length.
Qed.

Lemma lookups_app t1 t2 : lookups (t1 ++ t2) = lookups t1 + lookups t2.
Proof. unfold lookups. by rewrite List.filter_app, length_app. Qed.

Lemma scoring_inputs_app t1 t2 :
  scoring_inputs (t1 ++ t2) = (scoring_inputs t1 ++ scoring_inputs t2)%list.
Proof. apply omap_app. Qed.

(** Brings a chain of recorded events into the form [add_events _ s]. *)
Ltac as_add_events :=
  rewrite ?record_event_add, ?add_events_app.

(** The lookup of the Istio config map reads the cache handle and nothing
    else of the state.  When it comes back it has made one lookup. *)
Lemma lookupIstioConfig_returns env in_ s r s1 :
  lookupIstioConfig env in_ s = Returns r s1 →
  ∃ evs, s1 = add_events evs s ∧ lookups evs = 1 ∧ scoring_inputs evs = [].
Proof.
  unfold lookupIstioConfig, IsNamespaceCached. run.
  repeat case_match; intros; simplify_eq; as_add_events; eauto.
Qed.

Lemma lookupIstioConfig_final env in_ s :
  ∃ evs, final_state (lookupIstioConfig env in_ s) = add_events evs s ∧
         scoring_inputs evs = [].
Proof.
  unfold lookupIstioConfig, IsNamespaceCached. run.
  repeat case_match; simplify_eq; simpl; as_add_events; eauto.
  exists []. by rewrite add_events_nil.
Qed.

Lemma lookupIstioConfig_again env in_ s r s1 s' :
  lookupIstioConfig env in_ s = Returns r s1 →
  kialiCache s' = kialiCache s →
  ∃ s1', lookupIstioConfig env in_ s' = Returns r s1'.
Proof.
  unfold lookupIstioConfig, IsNamespaceCached. run. intros Hrun Hsame.
  repeat (case_match; simpl in *; rewrite ?Hsame in *; simplify_eq); eauto.
Qed.

(** *** The auto-mTLS flag *)

(** A resolved flag is answered from the service, with no call at all. *)
Lemma hasAutoMTLSEnabled_resolved env in_ b s :
  enabledAutoMtls in_ = Some b →
  hasAutoMTLSEnabled env in_ s = Returns (b, in_) s.
Proof. intros Hb. unfold hasAutoMTLSEnabled. by rewrite Hb. Qed.

(** A successful resolution is stored in the receiver. *)
Lemma hasAutoMTLSEnabled_stores env in_ s cm mc s1 :
  enabledAutoMtls in_ = None →
  lookupIstioConfig env in_ s = Returns (cm, None) s1 →
  kubernetes_GetIstioConfigMap env cm = (mc, None) →
  hasAutoMTLSEnabled env in_ s =
    Returns (kubernetes.GetEnableAutoMtls mc,
             {| k8s := k8s in_;
                enabledAutoMtls := Some (kubernetes.GetEnableAutoMtls mc) |})
            (record_event Call_GetIstioConfigMap s1).
Proof.
  intros Hnil Hlookup Hparse. unfold hasAutoMTLSEnabled. rewrite Hnil.
  unfold mbind at 1, M_bind. rewrite Hlookup. run. by rewrite Hparse.
Qed.

Lemma hasAutoMTLSEnabled_final env in_ s :
  ∃ evs, final_state (hasAutoMTLSEnabled env in_ s) = add_events evs s ∧
         scoring_inputs evs = [].
Proof.
  unfold hasAutoMTLSEnabled.
  destruct (enabledAutoMtls in_).
  { exists []. by rewrite add_events_nil. }
  unfold mbind at 1, M_bind.
  destruct (lookupIstioConfig_final env in_ s) as (evs & Hfin & Hsc).
  destruct (lookupIstioConfig env in_ s) as [[cm [e|]] s1|s1]; simpl in Hfin; subst; eauto.
  run. destruct (kubernetes_GetIstioConfigMap env cm) as [mc [e|]]; simpl;
    as_add_events; eexists; (split; [done|]);
    by rewrite scoring_inputs_app, Hsc.
Qed.

(** An unresolved flag is looked up: when the lookup comes back, so does the
    resolution, one lookup later. *)
Lemma hasAutoMTLSEnabled_unresolved env in_ s r s1 :
  enabledAutoMtls in_ = None →
  lookupIstioConfig env in_ s = Returns r s1 →
  ∃ r' s2, hasAutoMTLSEnabled env in_ s = Returns r' s2 ∧
           kialiCache s2 = kialiCache s ∧
           lookups (trace s2) = S (lookups (trace s)).
Proof.
  intros Hnil Hlookup. unfold hasAutoMTLSEnabled. rewrite Hnil.
  unfold mbind at 1, M_bind. rewrite Hlookup.
  apply lookupIstioConfig_returns in Hlookup as (evs & -> & Hone & _).
  destruct r as [cm [e|]]; run.
  - eexists _, _. split_and!; [done..|]. simpl. rewrite lookups_app. lia.
  - destruct (kubernetes_GetIstioConfigMap env cm) as [mc [e|]]; run;
      eexists _, _; (split_and!; [done..|]); simpl;
      rewrite !lookups_app, Hone; change (lookups [Call_GetIstioConfigMap]) with 0; lia.
Qed.

(** C3: while the flag is unresolved, whenever the lookup of the control
    plane's config map ends in an error, or the parsing of the config map
    that it found does, [hasAutoMTLSEnabled] returns true and leaves the
    receiver as it was, with [enabledAutoMtls] unset.  A later call on that
    receiver, in any state with the same cache handle, makes the lookup
    again. *)
Theorem hasAutoMTLSEnabled_fails_open env in_ s cm err s1 :
  enabledAutoMtls in_ = None →
  lookupIstioConfig env in_ s = Returns (cm, err) s1 →
  is_Some err ∨ is_Some (kubernetes_GetIstioConfigMap env cm).2 →
  ∃ s2, hasAutoMTLSEnabled env in_ s = Returns (true, in_) s2 ∧
        kialiCache s2 = kialiCache s ∧
        ∀ s', kialiCache s' = kialiCache s →
              ∃ s3, hasAutoMTLSEnabled env in_ s' = Returns (true, in_) s3 ∧
                    lookups (trace s3) = S (lookups (trace s')).
Proof.
  intros Hnil Hlookup Hfail.
  assert (∀ s' s1', lookupIstioConfig env in_ s' = Returns (cm, err) s1' →
            ∃ s2, hasAutoMTLSEnabled env in_ s' = Returns (true, in_) s2) as Hopen.
  { intros s' s1' Hl. unfold hasAutoMTLSEnabled. rewrite Hnil.
    unfold mbind at 1, M_bind. rewrite Hl.
    destruct err as [e|]; run; [eauto|].
    destruct Hfail as [[? [=]]|[e He]].
    destruct (kubernetes_GetIstioConfigMap env cm) as [mc [e'|]]; run; [eauto|done]. }
  destruct (Hopen _ _ Hlookup) as [s2 Hrun]. exists s2. split; [done|].
  destruct (hasAutoMTLSEnabled_unresolved _ _ _ _ _ Hnil Hlookup)
    as (r' & s2' & Hrun' & Hcache & _).
  split; [congruence|].
  intros s' Hsame.
  destruct (lookupIstioConfig_again _ _ _ _ _ s' Hlookup Hsame) as [s1' Hl'].
  destruct (Hopen _ _ Hl') as [s3 Hrun3]. exists s3. split; [done|].
  destruct (hasAutoMTLSEnabled_unresolved _ _ _ _ _ Hnil Hl')
    as (r3 & s3' & Hrun3' & _ & Hcount).
  congruence.
Qed.

Lemma hasAutoMTLSEnabled_fails_open_witness :
  ∃ s2, hasAutoMTLSEnabled scenario.env_up (scenario.tls scenario.client_down)
          scenario.uncached
        = Returns (true, scenario.tls scenario.client_down) s2.
Proof.
  destruct (hasAutoMTLSEnabled_fails_open scenario.env_up
              (scenario.tls scenario.client_down) scenario.uncached
              None (Some "connection refused")
              (record_event (Call_k8s_GetConfigMap "istio-system" "istio") scenario.uncached))
    as (s2 & Hrun & _).
  - reflexivity.
  - reflexivity.
  - left. by eexists.
  - by exists s2.
Defined.

(** *** The two status operations *)

Lemma NamespaceWidemTLSStatus_final env businessLayer in_ namespace s :
  ∃ evs,
    final_state (NamespaceWidemTLSStatus env businessLayer in_ namespace s) = add_events evs s ∧
    Forall (namespace_scoring_input env businessLayer namespace) (scoring_inputs evs).
Proof.
  unfold NamespaceWidemTLSStatus, getNamespaces. run.
  destruct (GetNamespaces (Namespace businessLayer)) as [nss [e|]]; run.
  { as_add_events. eexists. split; [done|]. simpl. constructor. }
  unfold namespace_scoring_input.
  destruct (GetIstioConfigList env (IstioConfig businessLayer) allNamespacesCriteria)
    as [cl [e|]]; run.
  { as_add_events. eexists. split; [done|]. simpl. constructor. }
  match goal with |- context [hasAutoMTLSEnabled env in_ ?s0] =>
    destruct (hasAutoMTLSEnabled_final env in_ s0) as (evs & Hfin & Hsc);
    destruct (hasAutoMTLSEnabled env in_ s0) as [[b in'] s1|s1]
  end; simpl in Hfin; subst s1; simpl; as_add_events;
    (eexists; split; [done|]);
    rewrite !scoring_inputs_app, Hsc; unfold scoring_inputs; simpl; repeat constructor.
Qed.

Lemma NamespaceWidemTLSStatus_returns env businessLayer in_ namespace s st err s' :
  NamespaceWidemTLSStatus env businessLayer in_ namespace s = Returns (st, err) s' →
  models.Namespace_tag st = None ∧
  ((GetNamespaces (Namespace businessLayer)).2 = None → err = None →
   ∃ ms, scoring_inputs
           (new_events s (NamespaceWidemTLSStatus env businessLayer in_ namespace s)) = [ms] ∧
         models.Status st = mtls.OverallStatus (NamespaceMtlsStatus env ms)).
Proof.
  intros Hrun. unfold new_events. rewrite Hrun. simpl. revert Hrun.
  unfold NamespaceWidemTLSStatus, getNamespaces. run.
  destruct (GetNamespaces (Namespace businessLayer)) as [nss [e|]]; run.
  { intros [= <- <- <-]. done. }
  destruct (GetIstioConfigList env (IstioConfig businessLayer) allNamespacesCriteria)
    as [cl [e|]]; run.
  { intros [= <- <- <-]. done. }
  match goal with |- context [hasAutoMTLSEnabled env in_ ?s0] =>
    destruct (hasAutoMTLSEnabled_final env in_ s0) as (evs & Hfin & Hsc);
    destruct (hasAutoMTLSEnabled env in_ s0) as [[b in'] s1|s1]
  end; [|done].
  simpl in Hfin; subst s1. intros [= <- <- <-]. split; [done|]. intros _ _.
  eexists. split; [|done]. simpl.
  rewrite <- !app_assoc, drop_app_length, !scoring_inputs_app, Hsc. done.
Qed.

Lemma MeshWidemTLSStatus_returns env businessLayer in_ namespaces s st err in' s' :
  MeshWidemTLSStatus env businessLayer in_ namespaces s = Returns (st, err, in') s' →
  models.Namespace_tag st = None.
Proof.
  unfold MeshWidemTLSStatus. run.
  destruct (GetIstioConfigList env (IstioConfig businessLayer) allNamespacesCriteria)
    as [cl [e|]]; run.
  { by intros [= <- _ _ _]. }
  destruct (hasAutoMTLSEnabled env in_ _) as [[b in1] s1|s1]; [|done].
  by intros [= <- _ _ _].
Qed.

(** C7: when the listing of the namespaces fails, [NamespaceWidemTLSStatus]
    returns the zero-value status and the nil error, having made no other
    call; when the namespaces are listed and the listing of the Istio
    configuration fails, it returns the zero-value status and that error. *)
Theorem NamespaceWidemTLSStatus_listing_failures env businessLayer in_ namespace s :
  (∀ nss e, GetNamespaces (Namespace businessLayer) = (nss, Some e) →
     NamespaceWidemTLSStatus env businessLayer in_ namespace s =
       Returns (models.zero, None) (add_events [Call_GetNamespaces] s)) ∧
  (∀ nss cl e2,
     GetNamespaces (Namespace businessLayer) = (nss, None) →
     GetIstioConfigList env (IstioConfig businessLayer) allNamespacesCriteria = (cl, Some e2) →
     NamespaceWidemTLSStatus env businessLayer in_ namespace s =
       Returns (models.zero, Some e2)
         (add_events [Call_GetNamespaces; Call_GetIstioConfigList allNamespacesCriteria] s)).
Proof.
  split.
  - intros nss e Hnss. unfold NamespaceWidemTLSStatus, getNamespaces. run.
    by rewrite Hnss.
  - intros nss cl e2 Hnss Hcl. unfold NamespaceWidemTLSStatus, getNamespaces. run.
    rewrite Hnss. run. rewrite Hcl. as_add_events. done.
Qed.

Lemma NamespaceWidemTLSStatus_listing_failures_witness :
  NamespaceWidemTLSStatus scenario.env_up (scenario.layer scenario.namespaces_down)
    (scenario.tls scenario.client_up) "bookinfo" scenario.cached
  = Returns (models.zero, None) (add_events [Call_GetNamespaces] scenario.cached) ∧
  NamespaceWidemTLSStatus scenario.env_listing_down (scenario.layer scenario.namespaces_up)
    (scenario.tls scenario.client_up) "bookinfo" scenario.cached
  = Returns (models.zero, Some "istio config is forbidden")
      (add_events [Call_GetNamespaces; Call_GetIstioConfigList allNamespacesCriteria]
         scenario.cached).
Proof.
  split.
  - eapply (NamespaceWidemTLSStatus_listing_failures scenario.env_up
              (scenario.layer scenario.namespaces_down)). reflexivity.
  - eapply (NamespaceWidemTLSStatus_listing_failures scenario.env_listing_down
              (scenario.layer scenario.namespaces_up)); reflexivity.
Defined.



(** C1, as the code has it: the status that [MeshWidemTLSStatus] returns
    carries no namespace tag, and neither does the status that
    [NamespaceWidemTLSStatus namespace] returns; [namespace] goes to the
    scoring capability, as the namespace of every input handed over, and a
    status returned after both listings succeeded holds the score of the one
    input handed over and nothing else. *)
Theorem mTLS_status_has_no_namespace_tag env businessLayer in_ s :
  (∀ namespaces st err in' s',
     MeshWidemTLSStatus env businessLayer in_ namespaces s = Returns (st, err, in') s' →
     models.Namespace_tag st = None) ∧
  (∀ namespace st err s',
     NamespaceWidemTLSStatus env businessLayer in_ namespace s = Returns (st, err) s' →
     models.Namespace_tag st = None ∧
     Forall (λ ms, mtls.Namespace ms = namespace)
       (scoring_inputs
          (new_events s (NamespaceWidemTLSStatus env businessLayer in_ namespace s))) ∧
     ((GetNamespaces (Namespace businessLayer)).2 = None → err = None →
      ∃ ms, scoring_inputs
              (new_events s (NamespaceWidemTLSStatus env businessLayer in_ namespace s))
            = [ms] ∧
            mtls.Namespace ms = namespace ∧
            st = {| models.Namespace_tag := None;
                    models.Status := mtls.OverallStatus (NamespaceMtlsStatus env ms) |})).
Proof.
  split.
  - intros namespaces st err in' s'. apply MeshWidemTLSStatus_returns.
  - intros namespace st err s' Hrun.
    destruct (NamespaceWidemTLSStatus_returns _ _ _ _ _ _ _ _ Hrun) as [Htag Hone].
    destruct (NamespaceWidemTLSStatus_final env businessLayer in_ namespace s)
      as (evs & Hfin & Hinputs).
    rewrite (new_events_add _ _ _ Hfin) in *.
    assert (Forall (λ ms, mtls.Namespace ms = namespace) (scoring_inputs evs)) as Hns.
    { eapply Forall_impl; [exact Hinputs|]. by intros ms (? & _). }
    split_and!; [done..|].
    intros Hnss Herr. destruct (Hone Hnss Herr) as (ms & Hms & Hst).
    exists ms. rewrite Hms in Hns. split_and!; [done|by inversion Hns|].
    destruct st as [tag status]. simpl in *. by subst.
Qed.

Lemma mTLS_status_has_no_namespace_tag_witness :
  models.Namespace_tag
    {| models.Namespace_tag := None; models.Status := "MTLS_ENABLED" |} = None ∧
  Forall (λ ms, mtls.Namespace ms = "default")
    (scoring_inputs
       (new_events scenario.uncached
          (NamespaceWidemTLSStatus scenario.env_up (scenario.layer scenario.namespaces_up)
             (scenario.tls scenario.client_up) "default" scenario.uncached))).
Proof.
  edestruct (proj2 (mTLS_status_has_no_namespace_tag scenario.env_up
                      (scenario.layer scenario.namespaces_up)
                      (scenario.tls scenario.client_up) scenario.uncached)
               "default") as (Htag & Hinputs & _).
  - vm_compute. reflexivity.
  - split; [exact Htag|exact Hinputs].
Defined.

(** C1, as the specification states it, fails: with caching off, the status
    of the namespace [default], which holds one peer authentication, comes
    back without the tag [default]. *)
Lemma NamespaceWidemTLSStatus_untagged :
  ∃ st s',
    NamespaceWidemTLSStatus scenario.env_up (scenario.layer scenario.namespaces_up)
      (scenario.tls scenario.client_up) "default" scenario.uncached
    = Returns (st, None) s' ∧
    models.Status st = "MTLS_ENABLED" ∧
    models.Namespace_tag st ≠ Some "default".
Proof. eexists _, _. split_and!; [vm_compute; reflexivity|done|done]. Qed.

Lemma MeshWidemTLSStatus_final env businessLayer in_ namespaces s :
  ∃ evs, final_state (MeshWidemTLSStatus env businessLayer in_ namespaces s)
         = add_events evs s.
Proof.
  unfold MeshWidemTLSStatus. run.
  destruct (GetIstioConfigList env (IstioConfig businessLayer) allNamespacesCriteria)
    as [cl [e|]]; run.
  { as_add_events. eauto. }
  match goal with |- context [hasAutoMTLSEnabled env in_ ?s0] =>
    destruct (hasAutoMTLSEnabled_final env in_ s0) as (evs & Hfin & _);
    destruct (hasAutoMTLSEnabled env in_ s0) as [[b in'] s1|s1]
  end; simpl in Hfin; subst s1; simpl; as_add_events; eauto.
Qed.

Lemma IsNamespaceCached_final namespace s :
  ∃ evs, final_state (IsNamespaceCached namespace s) = add_events evs s.
Proof.
  unfold IsNamespaceCached. run. case_match; simpl; as_add_events; eauto.
  exists []. by rewrite add_events_nil.
Qed.

Lemma IsResourceCached_final namespace resource s :
  ∃ evs, final_state (IsResourceCached namespace resource s) = add_events evs s.
Proof.
  unfold IsResourceCached, IsNamespaceCached. run.
  repeat (case_match; simpl in *; simplify_eq); as_add_events; eauto.
  all: exists []; by rewrite add_events_nil.
Qed.

Lemma Stop_final s : ∃ evs, final_state (Stop s) = add_events evs s.
Proof.
  unfold Stop. run. case_match; simpl; as_add_events; eauto.
  exists []. by rewrite add_events_nil.
Qed.

(** *** What each operation leaves alone *)

Lemma initKialiCache_jaegerClient env s :
  jaegerClient (final_state (initKialiCache env s)) = jaegerClient s.
Proof.
  unfold initKialiCache, namespaceSeed. run.
  repeat (case_match; simpl in *; simplify_eq); done.
Qed.

Lemma Start_jaegerClient env s :
  jaegerClient (final_state (Start env s)) = jaegerClient s.
Proof.
  unfold Start, once_Do. destruct (once s); [done|].
  pose proof (initKialiCache_jaegerClient env s) as Hinit.
  by destruct (initKialiCache env s).
Qed.

Lemma Get_frame env authInfo s :
  jaegerClient (final_state (Get env authInfo s)) = jaegerClient s ∧
  kialiCache (final_state (Get env authInfo s)) = kialiCache s ∧
  once (final_state (Get env authInfo s)) = once s.
Proof.
  unfold Get. run. repeat (case_match; simpl in *; simplify_eq); done.
Qed.

Lemma jaegerLoader_frame env authInfo s :
  kialiCache (final_state (jaegerLoader env authInfo s)) = kialiCache s ∧
  once (final_state (jaegerLoader env authInfo s)) = once s.
Proof.
  unfold jaegerLoader. run. repeat (case_match; simpl in *; simplify_eq); done.
Qed.

(** Only the loader writes [jaegerClient]; only [Start] writes [kialiCache]
    and the done flag of [once]. *)
Lemma exec_frame op s :
  (jaegerClient (exec op s) = jaegerClient s ∨ ∃ env a, op = Op_jaegerLoader env a) ∧
  ((kialiCache (exec op s) = kialiCache s ∧ once (exec op s) = once s) ∨
   ∃ env, op = Op_Start env).
Proof.
  destruct op as [env| |ns|ns r|env a|cf prom|env a|env l in_ nss|env l in_ ns]; simpl.
  - split; [left; apply Start_jaegerClient|eauto].
  - destruct (Stop_final s) as [evs ->]. by split; left.
  - destruct (IsNamespaceCached_final ns s) as [evs ->]. by split; left.
  - destruct (IsResourceCached_final ns r s) as [evs ->]. by split; left.
  - destruct (Get_frame env a s) as (? & ? & ?). by split; left.
  - by split; left.
  - split; [eauto|left; apply jaegerLoader_frame].
  - destruct (MeshWidemTLSStatus_final env l in_ nss s) as [evs ->]. by split; left.
  - destruct (NamespaceWidemTLSStatus_final env l in_ ns s) as (evs & -> & _).
    by split; left.
Qed.

(** *** The one-time setup *)

(** Once the done flag is set, [Start] touches nothing and calls nothing. *)
Lemma Start_done env s : once s = true → Start env s = Returns tt s.
Proof. intros Hdone. unfold Start, once_Do. by rewrite Hdone. Qed.

Lemma Start_failed_setup env s0 :
  once s0 = false → kialiCache s0 = None → SetupFails env →
  ∃ s1, Start env s0 = Returns tt s1 ∧ kialiCache s1 = None ∧ once s1 = true.
Proof.
  intros Hfirst Hnil Hfails. unfold Start, once_Do. rewrite Hfirst.
  unfold initKialiCache, namespaceSeed.
  destruct Hfails as [cf e Hcf|cf nss e Hcf Hon Hscoped Hnss
                     |cf nss c e Hcf Hon Hscoped Hnss Hcache
                     |cf c e Hcf Hon Hall Hcache];
    run; destruct (excludedWorkloads s0); run;
    rewrite Hcf; run; rewrite ?Hon, ?Hscoped, ?Hall; run;
    rewrite ?Hnss; run; rewrite ?Hcache; run; eauto.
Qed.

(** No operation of the package sets the cache handle after the setup is
    done. *)
Lemma uncached_forever ops s :
  kialiCache s = None → once s = true →
  kialiCache (exec_all ops s) = None ∧ once (exec_all ops s) = true.
Proof.
  revert s. induction ops as [|op ops IH]; intros s Hnil Hdone; [done|].
  simpl. apply IH.
  - destruct (exec_frame op s) as [_ [[-> _]|[env ->]]]; [done|].
    simpl. by rewrite Start_done.
  - destruct (exec_frame op s) as [_ [[_ ->]|[env ->]]]; [done|].
    simpl. by rewrite Start_done.
Qed.

(** C4: when the setup that [Start] runs fails at the construction of the
    client factory, at the listing of the initial namespaces or at the
    construction of the cache, [Start] returns with the cache handle unset;
    from then on, whatever operations of the package the process runs, the
    handle stays unset, [Start] is a no-op that calls nothing, and
    [IsNamespaceCached] returns false for every namespace, without a
    panic. *)
Theorem Start_failed_setup_is_permanent env s0 :
  once s0 = false → kialiCache s0 = None → SetupFails env →
  ∃ s1, Start env s0 = Returns tt s1 ∧
        kialiCache s1 = None ∧
        ∀ ops,
          kialiCache (exec_all ops s1) = None ∧
          (∀ env', Start env' (exec_all ops s1) = Returns tt (exec_all ops s1)) ∧
          (∀ namespace,
             IsNamespaceCached namespace (exec_all ops s1)
             = Returns false (exec_all ops s1)).
Proof.
  intros Hfirst Hnil Hfails.
  destruct (Start_failed_setup env s0 Hfirst Hnil Hfails) as (s1 & Hrun & Hnil1 & Hdone1).
  exists s1. split_and!; [done..|].
  intros ops. destruct (uncached_forever ops s1 Hnil1 Hdone1) as [Hnil2 Hdone2].
  split_and!; [done| |].
  - intros env'. by apply Start_done.
  - intros namespace. by apply IsNamespaceCached_uncached.
Qed.

Lemma Start_failed_setup_is_permanent_witness :
  ∃ s1, Start scenario.env_cache_outage process_start = Returns tt s1 ∧
        kialiCache s1 = None ∧
        IsNamespaceCached "bookinfo"
          (exec_all [Op_Start scenario.env_up; Op_Get scenario.env_up scenario.alice] s1)
        = Returns false
            (exec_all [Op_Start scenario.env_up; Op_Get scenario.env_up scenario.alice] s1).
Proof.
  destruct (Start_failed_setup_is_permanent scenario.env_cache_outage process_start)
    as (s1 & Hrun & Hnil & Hlater).
  - reflexivity.
  - reflexivity.
  - eapply (cache_construction_fails_scoped _ scenario.factory); reflexivity.
  - exists s1. split_and!; [done..|].
    apply (Hlater [Op_Start scenario.env_up; Op_Get scenario.env_up scenario.alice]).
Defined.

(** *** The Jaeger loader *)





(** *** The resolved flag and the receivers *)

(** Through the pointer receiver of [MeshWidemTLSStatus] a successful
    resolution reaches the service; the next call on the service as returned
    makes no lookup. *)
Lemma MeshWidemTLSStatus_keeps_resolved_flag :
  ∃ st1 in1 s1 st2 in2 s2,
    MeshWidemTLSStatus scenario.env_up (scenario.layer scenario.namespaces_up)
      (scenario.tls scenario.client_up) ["bookinfo"] scenario.uncached
    = Returns (st1, None, in1) s1 ∧
    enabledAutoMtls in1 = Some false ∧
    lookups (trace s1) = 1 ∧
    MeshWidemTLSStatus scenario.env_up (scenario.layer scenario.namespaces_up)
      in1 ["bookinfo"] s1
    = Returns (st2, None, in2) s2 ∧
    lookups (trace s2) = 1.
Proof. eexists _, _, _, _, _, _. split_and!; vm_compute; reflexivity. Qed.

(** C8, where the code departs from it: [NamespaceWidemTLSStatus] has a value
    receiver, so the flag that its call of [hasAutoMTLSEnabled] resolves is
    stored in a copy of the service.  The first call below resolves the flag
    (the config map is found and parsed, and the scoring input carries the
    parsed value false, not the fail-open true); the service is unresolved
    as before, and the second call on it looks the config map up again. *)
Theorem NamespaceWidemTLSStatus_resolves_again :
  ∃ st1 s1 st2 s2,
    enabledAutoMtls (scenario.tls scenario.client_up) = None ∧
    NamespaceWidemTLSStatus scenario.env_up (scenario.layer scenario.namespaces_up)
      (scenario.tls scenario.client_up) "bookinfo" scenario.uncached
    = Returns (st1, None) s1 ∧
    mtls.AutoMtlsEnabled <$> scoring_inputs (trace s1) = [false] ∧
    lookups (trace s1) = 1 ∧
    NamespaceWidemTLSStatus scenario.env_up (scenario.layer scenario.namespaces_up)
      (scenario.tls scenario.client_up) "bookinfo" s1
    = Returns (st2, None) s2 ∧
    lookups (trace s2) = 2.
Proof. eexists _, _, _, _. split_and!; vm_compute; reflexivity. Qed.

(** ** Further properties of [layer.go] *)

(** The loops that collect names build the list of the names, in order. *)
Lemma foldl_snoc_fmap {A B} (f : A → B) (l : list A) (acc : list B) :
  foldl (λ acc x, (acc ++ [f x])%list) acc l = (acc ++ (f <$> l))%list.
Proof.
  revert acc. induction l as [|x l IH]; intros acc; simpl.
  - by rewrite app_nil_r.
  - by rewrite IH, <- app_assoc.
Qed.

(** [IsResourceCached] never panics, and it answers true exactly when the
    cache handle is set, the cache holds the namespace and the resource kind
    is empty or held by the cache. *)
Theorem IsResourceCached_spec namespace resource s :
  ∃ s', IsResourceCached namespace resource s =
        Returns (match kialiCache s with
                 | None => false
                 | Some c => cache.CheckNamespace c namespace &&
                             (bool_decide (resource = "") ||
                              cache.CheckIstioResource c resource)
                 end) s'.
Proof.
  unfold IsResourceCached.
  destruct (kialiCache s) as [c|] eqn:Hc.
  - unfold mbind at 1, M_bind. rewrite (IsNamespaceCached_cached _ _ _ Hc).
    destruct (cache.CheckNamespace c namespace); simpl; [|run; eauto].
    destruct (decide (resource = "")) as [->|Hne].
    + run. eauto.
    + rewrite (bool_decide_eq_true_2 _ Hne), (bool_decide_eq_false_2 _ Hne).
      run. rewrite Hc. eauto.
  - unfold mbind at 1, M_bind. rewrite (IsNamespaceCached_uncached _ _ Hc). run. eauto.
Qed.

(** [Stop] stops the cache and keeps the handle: a second [Stop] stops the
    same cache again, and the cache queries go on answering from it. *)
Theorem Stop_keeps_the_handle s c :
  kialiCache s = Some c →
  ∃ s1 s2,
    Stop s = Returns tt s1 ∧ kialiCache s1 = Some c ∧
    Stop s1 = Returns tt s2 ∧
    s2 = add_events [Call_cache_Stop; Call_cache_Stop] s ∧
    ∀ namespace,
      IsNamespaceCached namespace s2 =
        Returns (cache.CheckNamespace c namespace)
                (record_event (Call_CheckNamespace namespace) s2).
Proof.
  intros Hc.
  assert (∀ s', kialiCache s' = Some c →
                Stop s' = Returns tt (record_event Call_cache_Stop s')) as Hstop.
  { intros s' Hc'. unfold Stop. run. by rewrite Hc'. }
  exists (record_event Call_cache_Stop s),
         (record_event Call_cache_Stop (record_event Call_cache_Stop s)).
  split_and!; [by apply Hstop|done|by apply Hstop|by as_add_events|].
  intros namespace. by apply IsNamespaceCached_cached.
Qed.

Lemma Stop_keeps_the_handle_witness :
  ∃ s2, Stop scenario.cached = Returns tt (add_events [Call_cache_Stop] scenario.cached) ∧
        IsNamespaceCached "bookinfo" s2 =
          Returns true (record_event (Call_CheckNamespace "bookinfo") s2).
Proof.
  destruct (Stop_keeps_the_handle scenario.cached scenario.kiali_cache eq_refl)
    as (s1 & s2 & Hstop & _ & _ & _ & Hquery).
  exists s2. split; [reflexivity|]. apply (Hquery "bookinfo").
Defined.

(** Without a cache, [Stop] does nothing at all. *)
Lemma Stop_uncached s : kialiCache s = None → Stop s = Returns tt s.
Proof. intros Hnil. unfold Stop. run. by rewrite Hnil. Qed.

(** A cache handle that the setup has set is never replaced or cleared,
    whatever operations of the package follow, [Stop] included. *)
Theorem cache_handle_is_permanent ops s c :
  kialiCache s = Some c → once s = true →
  kialiCache (exec_all ops s) = Some c.
Proof.
  revert s. induction ops as [|op ops IH]; intros s Hc Hdone; [done|].
  simpl.
  destruct (exec_frame op s) as [_ [[Hsame Honce]|[env ->]]].
  - apply IH; congruence.
  - simpl. rewrite (Start_done _ _ Hdone). simpl. by apply IH.
Qed.

Lemma cache_handle_is_permanent_witness :
  kialiCache (exec_all [Op_Stop; Op_Start scenario.env_cache_outage;
                        Op_Get scenario.env_up scenario.alice] scenario.cached)
  = Some scenario.kiali_cache.
Proof. apply cache_handle_is_permanent; reflexivity. Defined.

(** With a namespace-scoped cache, a setup in which every step succeeds
    calls, in this order, the client factory, the service-account clients,
    the namespace listing and the cache constructor, which is seeded with the
    names of the listed namespaces in their order.  It stores the factory and
    what the constructor returned, and the cache queries answer from it. *)
Theorem Start_builds_scoped_cache env s0 cf nss c :
  once s0 = false →
  kubernetes_GetClientFactory env = (Some cf, None) →
  config.CacheEnabled (config_Get env) = true →
  config.AllNamespacesAccessible (config_Get env) = false →
  GetNamespaces (NewNamespaceService env (kubernetes.GetSAClients cf)
                                         (kubernetes.GetSAClients cf)) = (nss, None) →
  cache_NewKialiCache env (Some cf) (config_Get env) (models.Name <$> nss) = (Some c, None) →
  ∃ s1, Start env s0 = Returns tt s1 ∧
        new_events s0 (Start env s0) =
          [Call_GetClientFactory; Log_Infof "Initializing Kiali Cache";
           Call_GetSAClients; Call_GetNamespaces;
           Call_NewKialiCache (models.Name <$> nss)] ∧
        clientFactory s1 = Some cf ∧ kialiCache s1 = Some c ∧ once s1 = true ∧
        ∀ namespace,
          IsNamespaceCached namespace s1 =
            Returns (cache.CheckNamespace c namespace)
                    (record_event (Call_CheckNamespace namespace) s1).
Proof.
  intros Hfirst Hcf Hon Hscoped Hnss Hcache.
  assert (∃ s1, Start env s0 = Returns tt s1 ∧
                trace s1 = (trace s0 ++
                  [Call_GetClientFactory; Log_Infof "Initializing Kiali Cache";
                   Call_GetSAClients; Call_GetNamespaces;
                   Call_NewKialiCache (models.Name <$> nss)])%list ∧
                clientFactory s1 = Some cf ∧ kialiCache s1 = Some c ∧ once s1 = true)
    as (s1 & Hrun & Htrace & Hfactory & Hc & Hdone).
  { unfold Start, once_Do. rewrite Hfirst. unfold initKialiCache, namespaceSeed.
    run. destruct (excludedWorkloads s0); run;
      rewrite Hcf; run; rewrite Hon, Hscoped; run; rewrite Hnss; run;
      rewrite foldl_snoc_fmap; simpl; rewrite Hcache; run;
      (eexists; split_and!; [done| |done..]); simpl;
      by rewrite <- !app_assoc. }
  exists s1. split_and!; try done.
  - unfold new_events. rewrite Hrun. simpl. by rewrite Htrace, drop_app_length.
  - intros namespace. by apply IsNamespaceCached_cached.
Qed.

Lemma Start_builds_scoped_cache_witness :
  ∃ s1, Start scenario.env_up process_start = Returns tt s1 ∧
        kialiCache s1 = Some scenario.kiali_cache ∧
        new_events process_start (Start scenario.env_up process_start) =
          [Call_GetClientFactory; Log_Infof "Initializing Kiali Cache";
           Call_GetSAClients; Call_GetNamespaces;
           Call_NewKialiCache ["bookinfo"; "default"; "istio-system"]].
Proof.
  destruct (Start_builds_scoped_cache scenario.env_up process_start scenario.factory
              [models.mkNamespace "bookinfo"; models.mkNamespace "default";
               models.mkNamespace "istio-system"] scenario.kiali_cache)
    as (s1 & Hrun & Hevents & _ & Hc & _); try reflexivity.
  exists s1. split_and!; [exact Hrun|exact Hc|exact Hevents].
Defined.

(** With all namespaces accessible, the setup lists no namespace and asks no
    service-account client: the cache is built with an empty seed from
    whatever factory came back. *)
Theorem Start_builds_cluster_cache env s0 cf c :
  once s0 = false →
  kubernetes_GetClientFactory env = (cf, None) →
  config.CacheEnabled (config_Get env) = true →
  config.AllNamespacesAccessible (config_Get env) = true →
  cache_NewKialiCache env cf (config_Get env) [] = (c, None) →
  ∃ s1, Start env s0 = Returns tt s1 ∧
        new_events s0 (Start env s0) =
          [Call_GetClientFactory; Log_Infof "Initializing Kiali Cache";
           Call_NewKialiCache []] ∧
        clientFactory s1 = cf ∧ kialiCache s1 = c ∧ once s1 = true.
Proof.
  intros Hfirst Hcf Hon Hall Hcache.
  unfold new_events, Start, once_Do. rewrite Hfirst.
  unfold initKialiCache, namespaceSeed.
  run. destruct (excludedWorkloads s0); run;
    rewrite Hcf; run; rewrite Hon, Hall; run; rewrite Hcache; run;
    (eexists; split_and!; [done| |done..]);
    by rewrite <- !app_assoc, drop_app_length.
Qed.

Lemma Start_builds_cluster_cache_witness :
  ∃ s1, Start scenario.env_cluster_wide process_start = Returns tt s1 ∧
        kialiCache s1 = Some scenario.kiali_cache.
Proof.
  destruct (Start_builds_cluster_cache scenario.env_cluster_wide process_start
              (Some scenario.factory) (Some scenario.kiali_cache))
    as (s1 & Hrun & _ & _ & Hc & _); try reflexivity.
  by exists s1.
Defined.

(** With caching off, the setup stores the client factory and ends there: no
    namespace is listed, no cache is built, the cache handle is as before. *)
Theorem Start_without_cache env s0 cf :
  once s0 = false →
  kubernetes_GetClientFactory env = (cf, None) →
  config.CacheEnabled (config_Get env) = false →
  ∃ s1, Start env s0 = Returns tt s1 ∧
        new_events s0 (Start env s0) = [Call_GetClientFactory] ∧
        clientFactory s1 = cf ∧ kialiCache s1 = kialiCache s0 ∧ once s1 = true.
Proof.
  intros Hfirst Hcf Hoff.
  unfold new_events, Start, once_Do. rewrite Hfirst. unfold initKialiCache.
  run. destruct (excludedWorkloads s0); run;
    rewrite Hcf; run; rewrite Hoff; run;
    (eexists; split_and!; [done| |done..]);
    by rewrite drop_app_length.
Qed.

Lemma Start_without_cache_witness :
  ∃ s1, Start scenario.env_cache_off process_start = Returns tt s1 ∧
        new_events process_start (Start scenario.env_cache_off process_start)
          = [Call_GetClientFactory] ∧
        kialiCache s1 = None.
Proof.
  destruct (Start_without_cache scenario.env_cache_off process_start (Some scenario.factory))
    as (s1 & Hrun & Hevents & _ & Hc & _); try reflexivity.
  exists s1. split_and!; [exact Hrun|exact Hevents|exact Hc].
Defined.

(** The map of excluded workloads. *)
Lemma excluded_lookup (l : list string) (m : gmap string bool) w :
  foldl (λ m w, <[w:=true]> m) m l !! w =
    if decide (w ∈ l) then Some true else m !! w.
Proof.
  revert m. induction l as [|x l IH]; intros m; simpl.
  - destruct (decide (w ∈ [])) as [Hin|_]; [by apply elem_of_nil in Hin|done].
  - rewrite IH.
    destruct (decide (w ∈ x :: l)) as [Hin|Hout], (decide (w ∈ l)) as [Hl|Hl];
      try done.
    + apply elem_of_cons in Hin as [->|Hin]; [by rewrite lookup_insert_eq|done].
    + exfalso. apply Hout. by right.
    + rewrite lookup_insert_ne; [done|]. intros ->. apply Hout. by left.
Qed.

Lemma initKialiCache_excludedWorkloads env s :
  excludedWorkloads (final_state (initKialiCache env s)) =
    match excludedWorkloads s with
    | None => Some (foldl (λ m w, <[w:=true]> m) ∅
                          (config.ExcludeWorkloads (config_Get env)))
    | Some m => Some m
    end.
Proof.
  unfold initKialiCache, namespaceSeed. run.
  repeat (case_match; simpl in *; simplify_eq); done.
Qed.

(** The first [Start] of a process fills the map of excluded workloads
    before any step that can fail: whether the setup then succeeds, fails or
    panics, the map holds true for exactly the workload names of the
    configuration.  A map that is already there is left as it is. *)
Theorem Start_fills_excludedWorkloads env s0 :
  once s0 = false →
  (excludedWorkloads s0 = None →
   ∃ m : gmap string bool,
     excludedWorkloads (final_state (Start env s0)) = Some m ∧
     ∀ w, m !! w = if decide (w ∈ config.ExcludeWorkloads (config_Get env))
                   then Some true else None) ∧
  (∀ m, excludedWorkloads s0 = Some m →
        excludedWorkloads (final_state (Start env s0)) = Some m).
Proof.
  intros Hfirst.
  assert (excludedWorkloads (final_state (Start env s0)) =
          excludedWorkloads (final_state (initKialiCache env s0))) as ->.
  { unfold Start, once_Do. rewrite Hfirst. by destruct (initKialiCache env s0). }
  rewrite initKialiCache_excludedWorkloads. split.
  - intros ->. eexists. split; [done|]. intros w. by rewrite excluded_lookup.
  - by intros m ->.
Qed.

Lemma Start_fills_excludedWorkloads_witness :
  ∃ m : gmap string bool,
    excludedWorkloads (final_state (Start scenario.env_cache_outage process_start)) = Some m ∧
    m !! "Job" = Some true ∧ m !! "Deployment" = None.
Proof.
  destruct (Start_fills_excludedWorkloads scenario.env_cache_outage process_start eq_refl)
    as [Hfill _].
  destruct (Hfill eq_refl) as (m & Hm & Hlookup).
  exists m. split_and!; [exact Hm|..].
  - rewrite Hlookup. reflexivity.
  - rewrite Hlookup. reflexivity.
Defined.

Lemma Start_clientFactory env s0 cf err :
  once s0 = false →
  kubernetes_GetClientFactory env = (cf, err) →
  clientFactory (final_state (Start env s0)) =
    if err is Some _ then clientFactory s0 else cf.
Proof.
  intros Hfirst Hcf.
  assert (clientFactory (final_state (Start env s0)) =
          clientFactory (final_state (initKialiCache env s0))) as ->.
  { unfold Start, once_Do. rewrite Hfirst. by destruct (initKialiCache env s0). }
  unfold initKialiCache, namespaceSeed. run.
  destruct (excludedWorkloads s0); run; rewrite Hcf; run;
    repeat (case_match; simpl in *; simplify_eq); done.
Qed.

(** The setup stores the client factory as soon as it is built, before the
    steps on the cache: when a later step fails or panics, the factory
    stays set. *)
Theorem Start_stores_client_factory env s0 cf :
  once s0 = false →
  kubernetes_GetClientFactory env = (cf, None) →
  clientFactory (final_state (Start env s0)) = cf.
Proof. intros Hfirst Hcf. by rewrite (Start_clientFactory _ _ _ _ Hfirst Hcf). Qed.

Lemma Start_stores_client_factory_witness :
  clientFactory (final_state (Start scenario.env_cache_outage process_start))
  = Some scenario.factory.
Proof.
  apply (Start_stores_client_factory scenario.env_cache_outage process_start
           (Some scenario.factory)); reflexivity.
Defined.

(** *** [Get] *)




(** The two errors of [Get].  When the caller's clients cannot be built,
    [Get] returns that error after this one call.  When the Prometheus
    client cannot be built, [Get] returns that error, asks for no
    service-account client and leaves [prometheusClient] nil, so that the
    next [Get] constructs again. *)
Theorem Get_errors env authInfo s f :
  clientFactory s = Some f →
  (∀ userClients e,
     kubernetes.GetClients f authInfo = (userClients, Some e) →
     Get env authInfo s = Returns (None, Some e) (add_events [Call_GetClients authInfo] s)) ∧
  (∀ userClients prom e,
     kubernetes.GetClients f authInfo = (userClients, None) →
     prometheusClient s = None →
     prometheus_NewClient env = (prom, Some e) →
     Get env authInfo s =
       Returns (None, Some e)
               (add_events [Call_GetClients authInfo; Call_prometheus_NewClient] s)).
Proof.
  intros Hf. split.
  - intros userClients e Hclients. unfold Get. run. rewrite Hf. run.
    by rewrite Hclients.
  - intros userClients prom e Hclients Hnil Hprom. unfold Get. run. rewrite Hf. run.
    rewrite Hclients. run. rewrite Hnil. run. rewrite Hprom. run.
    f_equal. unfold set_prometheusClient, add_events, record_event. simpl.
    by rewrite Hnil, <- app_assoc.
Qed.

Lemma Get_errors_witness :
  Get scenario.env_prometheus_down scenario.alice scenario.uncached =
    Returns (None, Some "prometheus is unreachable")
            (add_events [Call_GetClients scenario.alice; Call_prometheus_NewClient]
                        scenario.uncached).
Proof.
  eapply (Get_errors scenario.env_prometheus_down scenario.alice scenario.uncached
            scenario.factory); reflexivity.
Defined.

(** The Prometheus client is built on the first [Get] that needs it and
    reused afterwards: a [Get] that finds the variable set never calls the
    constructor and leaves the variable as it is. *)
Theorem Get_reuses_prometheus_client env authInfo s :
  (∀ f userClients p,
     clientFactory s = Some f →
     kubernetes.GetClients f authInfo = (userClients, None) →
     prometheusClient s = None →
     prometheus_NewClient env = (Some p, None) →
     prometheusClient (final_state (Get env authInfo s)) = Some p) ∧
  (∀ p,
     prometheusClient s = Some p →
     prometheusClient (final_state (Get env authInfo s)) = Some p ∧
     Call_prometheus_NewClient ∉ new_events s (Get env authInfo s)).
Proof.
  split.
  - intros f userClients p Hf Hclients Hnil Hprom. unfold Get. run. rewrite Hf. run.
    rewrite Hclients. run. rewrite Hnil. run. rewrite Hprom. run. by rewrite Hf.
  - intros p Hp. unfold new_events, Get. run.
    destruct (clientFactory s) as [f|] eqn:Hf; run.
    + destruct (kubernetes.GetClients f authInfo) as [userClients [e|]]; run;
        rewrite ?Hp; run; rewrite ?Hf; run;
        (split; [done|]); rewrite <- ?app_assoc, drop_app_length; simpl;
        repeat (apply not_elem_of_cons; split; [done|]); apply not_elem_of_nil.
    + split; [done|]. rewrite drop_all. apply not_elem_of_nil.
Qed.

Lemma Get_reuses_prometheus_client_witness :
  prometheusClient (final_state (Get scenario.env_up scenario.alice scenario.uncached))
  = Some (prometheus.Client "prometheus") ∧
  Call_prometheus_NewClient ∉
    new_events (final_state (Get scenario.env_up scenario.alice scenario.uncached))
      (Get scenario.env_prometheus_down scenario.bob
         (final_state (Get scenario.env_up scenario.alice scenario.uncached))).
Proof.
  split.
  - eapply (proj1 (Get_reuses_prometheus_client scenario.env_up scenario.alice
                     scenario.uncached) scenario.factory); reflexivity.
  - eapply (proj2 (Get_reuses_prometheus_client scenario.env_prometheus_down scenario.bob
                     (final_state (Get scenario.env_up scenario.alice scenario.uncached)))).
    reflexivity.
Defined.



(** ** Further properties of [tls.go] *)

Lemma found_in_elem_of dr namespaces :
  found_in dr namespaces = bool_decide (networking_v1alpha3.Namespace dr ∈ namespaces).
Proof.
  induction namespaces as [|ns namespaces IH]; cbn [found_in].
  - symmetry. apply bool_decide_eq_false_2, not_elem_of_nil.
  - destruct (decide (networking_v1alpha3.Namespace dr = ns)) as [Heq|Hne].
    + rewrite (bool_decide_eq_true_2 _ Heq). symmetry.
      apply bool_decide_eq_true_2. rewrite Heq. by left.
    + rewrite (bool_decide_eq_false_2 _ Hne), IH.
      apply bool_decide_ext. rewrite elem_of_cons.
      split; [by right|by intros [?|?]].
Qed.

Lemma foldl_keep_filter {A} (keep : A → bool) (l acc : list A) :
  foldl (λ acc x, if keep x then (acc ++ [x])%list else acc) acc l
  = (acc ++ filter (λ x, keep x = true) l)%list.
Proof.
  revert acc. induction l as [|x l IH]; intros acc; simpl.
  - by rewrite app_nil_r.
  - rewrite IH. destruct (keep x) eqn:Hk.
    + rewrite filter_cons_True by done. by rewrite <- app_assoc.
    + rewrite filter_cons_False by (by rewrite Hk). done.
Qed.

(** [getAllDestinationRules] returns the listed destination rules whose
    namespace is one of [namespaces], in the order of the listing and as
    often as they are listed; a listing error comes back with no rules.
    Either way it makes the one listing call, asks for destination rules
    only, and leaves the service as it was. *)
Theorem getAllDestinationRules_filters env businessLayer in_ namespaces s :
  (∀ cl, GetIstioConfigList env (IstioConfig businessLayer) destinationRulesCriteria
         = (cl, None) →
     getAllDestinationRules env businessLayer in_ namespaces s =
       Returns (filter (λ dr, networking_v1alpha3.Namespace dr ∈ namespaces)
                       (DestinationRules cl), None, in_)
               (add_events [Call_GetIstioConfigList destinationRulesCriteria] s)) ∧
  (∀ cl e, GetIstioConfigList env (IstioConfig businessLayer) destinationRulesCriteria
           = (cl, Some e) →
     getAllDestinationRules env businessLayer in_ namespaces s =
       Returns ([], Some e, in_)
               (add_events [Call_GetIstioConfigList destinationRulesCriteria] s)).
Proof.
  split.
  - intros cl Hcl. unfold getAllDestinationRules. run. rewrite Hcl. run.
    rewrite (foldl_keep_filter (λ dr, found_in dr namespaces)). simpl.
    do 3 f_equal. apply list_filter_iff. intros dr.
    rewrite found_in_elem_of. apply bool_decide_eq_true.
  - intros cl e Hcl. unfold getAllDestinationRules. run. by rewrite Hcl.
Qed.

Lemma getAllDestinationRules_filters_witness :
  getAllDestinationRules scenario.env_up (scenario.layer scenario.namespaces_up)
    (scenario.tls scenario.client_up) ["other"; "missing"; "other"] scenario.uncached =
  Returns ([scenario.dr "other" "ratings"], None, scenario.tls scenario.client_up)
          (add_events [Call_GetIstioConfigList destinationRulesCriteria] scenario.uncached).
Proof.
  apply (proj1 (getAllDestinationRules_filters scenario.env_up
                  (scenario.layer scenario.namespaces_up) (scenario.tls scenario.client_up)
                  ["other"; "missing"; "other"] scenario.uncached) scenario.config_list).
  reflexivity.
Defined.

(** [getNamespaces] returns one name for each listed namespace, in the order
    of the listing, or no name and the error of the listing. *)
Theorem getNamespaces_names businessLayer in_ s :
  (∀ nss, GetNamespaces (Namespace businessLayer) = (nss, None) →
     getNamespaces businessLayer in_ s =
       Returns (models.Name <$> nss, None) (add_events [Call_GetNamespaces] s)) ∧
  (∀ nss e, GetNamespaces (Namespace businessLayer) = (nss, Some e) →
     getNamespaces businessLayer in_ s =
       Returns ([], Some e) (add_events [Call_GetNamespaces] s)).
Proof.
  split.
  - intros nss Hnss. unfold getNamespaces. run. rewrite Hnss.
    by rewrite foldl_snoc_fmap.
  - intros nss e Hnss. unfold getNamespaces. run. by rewrite Hnss.
Qed.

Lemma getNamespaces_names_witness :
  getNamespaces (scenario.layer scenario.namespaces_up) (scenario.tls scenario.client_up)
    scenario.uncached =
  Returns (["bookinfo"; "default"; "istio-system"], None)
          (add_events [Call_GetNamespaces] scenario.uncached).
Proof.
  apply (proj1 (getNamespaces_names (scenario.layer scenario.namespaces_up)
                  (scenario.tls scenario.client_up) scenario.uncached)
           [models.mkNamespace "bookinfo"; models.mkNamespace "default";
            models.mkNamespace "istio-system"]).
  reflexivity.
Defined.

Lemma hasAutoMTLSEnabled_sticky_aux env in_ s b in' s' :
  hasAutoMTLSEnabled env in_ s = Returns (b, in') s' →
  k8s in' = k8s in_ ∧
  ∀ b', enabledAutoMtls in' = Some b' →
        b' = b ∧
        ∀ env' s'', hasAutoMTLSEnabled env' in' s'' = Returns (b, in') s''.
Proof.
  intros Hrun.
  assert (k8s in' = k8s in_ ∧ ∀ b', enabledAutoMtls in' = Some b' → b' = b) as [Hk Hb].
  { revert Hrun. unfold hasAutoMTLSEnabled.
    destruct (enabledAutoMtls in_) as [b0|] eqn:Hflag.
    { intros [= <- <- <-]. split; [done|]. intros b'. rewrite Hflag. by intros [= ->]. }
    unfold mbind at 1, M_bind.
    destruct (lookupIstioConfig env in_ s) as [[cm [e|]] s1|s1]; [| |done].
    { run. intros [= <- <- <-]. split; [done|]. intros b'. by rewrite Hflag. }
    run. destruct (kubernetes_GetIstioConfigMap env cm) as [mc [e|]]; run.
    - intros [= <- <- <-]. split; [done|]. intros b'. by rewrite Hflag.
    - intros [= <- <- <-]. split; [done|]. simpl. by intros b' [= ->]. }
  split; [done|]. intros b' Hb'. destruct (Hb b' Hb') as [].
  split; [done|]. intros env' s''. by apply hasAutoMTLSEnabled_resolved.
Qed.

(** Whatever [hasAutoMTLSEnabled] returns, it keeps the client of the
    service; and when the service it leaves holds a flag, that flag is the
    value just returned, and every later call on that service, in any state
    and with any configuration, returns it without a call and without a
    write. *)
Theorem hasAutoMTLSEnabled_sticky env in_ s b in' s' :
  hasAutoMTLSEnabled env in_ s = Returns (b, in') s' →
  k8s in' = k8s in_ ∧
  ∀ b', enabledAutoMtls in' = Some b' →
        b' = b ∧
        ∀ env' s'', hasAutoMTLSEnabled env' in' s'' = Returns (b, in') s''.
Proof. apply hasAutoMTLSEnabled_sticky_aux. Qed.

Lemma hasAutoMTLSEnabled_sticky_witness :
  hasAutoMTLSEnabled scenario.env_listing_down
    {| k8s := Some scenario.client_up; enabledAutoMtls := Some false |} scenario.cached
  = Returns (false, {| k8s := Some scenario.client_up; enabledAutoMtls := Some false |})
            scenario.cached.
Proof.
  edestruct (hasAutoMTLSEnabled_sticky scenario.env_up (scenario.tls scenario.client_up)
               scenario.uncached) as [_ Hlater].
  - vm_compute. reflexivity.
  - destruct (Hlater false eq_refl) as [_ Hcalls].
    apply (Hcalls scenario.env_listing_down scenario.cached).
Defined.

(** When the cache holds the Istio namespace, an unresolved flag is looked
    up in the cache and nowhere else: [hasAutoMTLSEnabled] returns, also on a
    service without a client, and its one lookup is the cache's. *)
Theorem hasAutoMTLSEnabled_reads_the_cache env in_ s c :
  enabledAutoMtls in_ = None →
  kialiCache s = Some c →
  cache.CheckNamespace c (config.IstioNamespace (config_Get env)) = true →
  ∃ r s', hasAutoMTLSEnabled env in_ s = Returns r s' ∧
          List.filter is_lookup (new_events s (hasAutoMTLSEnabled env in_ s)) =
            [Call_cache_GetConfigMap (config.IstioNamespace (config_Get env))
                                     (config.ConfigMapName (config_Get env))].
Proof.
  intros Hnil Hc Hcached.
  unfold new_events, hasAutoMTLSEnabled, lookupIstioConfig, IsNamespaceCached.
  rewrite Hnil. run. rewrite Hc. run. rewrite Hcached. run. rewrite Hc. run.
  destruct (cache.GetConfigMap c _ _) as [cm [e|]]; run.
  { eexists _, _. split; [done|]. simpl.
    by rewrite <- !app_assoc, drop_app_length. }
  destruct (kubernetes_GetIstioConfigMap env cm) as [mc [e|]]; run;
    (eexists _, _; split; [done|]); simpl;
    by rewrite <- !app_assoc, drop_app_length.
Qed.

Lemma hasAutoMTLSEnabled_reads_the_cache_witness :
  ∃ r s', hasAutoMTLSEnabled scenario.env_up
            {| k8s := None; enabledAutoMtls := None |} scenario.cached = Returns r s'.
Proof.
  destruct (hasAutoMTLSEnabled_reads_the_cache scenario.env_up
              {| k8s := None; enabledAutoMtls := None |} scenario.cached
              scenario.kiali_cache) as (r & s' & Hrun & _); try reflexivity.
  by exists r, s'.
Defined.

(** [hasAutoMTLSEnabled] panics in one situation only: the flag is
    unresolved, the cache does not hold the Istio namespace (or there is no
    cache), and the service has no client to ask. *)
Theorem hasAutoMTLSEnabled_panics_iff env in_ s :
  (∃ s', hasAutoMTLSEnabled env in_ s = Panics s') ↔
  enabledAutoMtls in_ = None ∧ k8s in_ = None ∧
  ∀ c, kialiCache s = Some c →
       cache.CheckNamespace c (config.IstioNamespace (config_Get env)) = false.
Proof.
  unfold hasAutoMTLSEnabled, lookupIstioConfig, IsNamespaceCached. run.
  destruct (enabledAutoMtls in_) as [b|]; [split; [by intros [? ?]|by intros [? _]]|].
  destruct (kialiCache s) as [c|] eqn:Hc; run.
  - destruct (cache.CheckNamespace c (config.IstioNamespace (config_Get env))) eqn:Hcached;
      run.
    + rewrite Hc. run. split.
      * intros [s' Hrun]. repeat (case_match; simpl in *; simplify_eq).
      * intros (_ & _ & Hno). specialize (Hno c eq_refl). congruence.
    + destruct (k8s in_) as [k|]; run.
      * split; [|by intros (_ & ? & _)].
        intros [s' Hrun]. repeat (case_match; simpl in *; simplify_eq).
      * split; [|by eauto]. intros _. split_and!; [done..|]. by intros c' [= <-].
  - destruct (k8s in_) as [k|]; run.
    + split; [|by intros (_ & ? & _)].
      intros [s' Hrun]. repeat (case_match; simpl in *; simplify_eq).
    + split; [|by eauto]. intros _. split_and!; done.
Qed.

(** A service that holds a resolved flag makes no config-map lookup in
    either status operation, and every input it hands to the scoring
    capability carries the held flag. *)
Theorem resolved_flag_is_used env businessLayer in_ b s :
  enabledAutoMtls in_ = Some b →
  (∀ namespace,
     lookups (new_events s (NamespaceWidemTLSStatus env businessLayer in_ namespace s)) = 0 ∧
     Forall (λ ms, mtls.AutoMtlsEnabled ms = b)
       (scoring_inputs
          (new_events s (NamespaceWidemTLSStatus env businessLayer in_ namespace s)))) ∧
  (∀ namespaces,
     lookups (new_events s (MeshWidemTLSStatus env businessLayer in_ namespaces s)) = 0 ∧
     Forall (λ ms, mtls.AutoMtlsEnabled ms = b)
       (scoring_inputs
          (new_events s (MeshWidemTLSStatus env businessLayer in_ namespaces s)))).
Proof.
  intros Hb. split.
  - intros namespace. unfold new_events, NamespaceWidemTLSStatus, getNamespaces. run.
    destruct (GetNamespaces (Namespace businessLayer)) as [nss [e|]]; run.
    { rewrite drop_app_length. split; [done|constructor]. }
    destruct (GetIstioConfigList env (IstioConfig businessLayer) allNamespacesCriteria)
      as [cl [e|]]; run.
    { rewrite <- !app_assoc, drop_app_length. split; [done|constructor]. }
    rewrite (hasAutoMTLSEnabled_resolved _ _ _ _ Hb). simpl.
    rewrite <- !app_assoc, drop_app_length. split; [done|].
    unfold scoring_inputs. simpl. by repeat constructor.
  - intros namespaces. unfold new_events, MeshWidemTLSStatus. run.
    destruct (GetIstioConfigList env (IstioConfig businessLayer) allNamespacesCriteria)
      as [cl [e|]]; run.
    { rewrite drop_app_length. split; [done|constructor]. }
    rewrite (hasAutoMTLSEnabled_resolved _ _ _ _ Hb). simpl.
    rewrite <- !app_assoc, drop_app_length. split; [done|].
    unfold scoring_inputs. simpl. by repeat constructor.
Qed.

Lemma resolved_flag_is_used_witness :
  lookups (new_events scenario.uncached
             (NamespaceWidemTLSStatus scenario.env_up (scenario.layer scenario.namespaces_up)
                {| k8s := None; enabledAutoMtls := Some true |} "bookinfo"
                scenario.uncached)) = 0.
Proof.
  apply (resolved_flag_is_used scenario.env_up (scenario.layer scenario.namespaces_up)
           {| k8s := None; enabledAutoMtls := Some true |} true scenario.uncached eq_refl).
Defined.

(** When the listing of the Istio configuration fails, [MeshWidemTLSStatus]
    returns the zero-value status and that error after this one call: the
    flag is not resolved, nothing is scored and the service is as it was. *)
Theorem MeshWidemTLSStatus_listing_failure env businessLayer in_ namespaces s cl e :
  GetIstioConfigList env (IstioConfig businessLayer) allNamespacesCriteria = (cl, Some e) →
  MeshWidemTLSStatus env businessLayer in_ namespaces s =
    Returns (models.zero, Some e, in_)
            (add_events [Call_GetIstioConfigList allNamespacesCriteria] s).
Proof. intros Hcl. unfold MeshWidemTLSStatus. run. by rewrite Hcl. Qed.

Lemma MeshWidemTLSStatus_listing_failure_witness :
  MeshWidemTLSStatus scenario.env_listing_down (scenario.layer scenario.namespaces_up)
    (scenario.tls scenario.client_up) ["bookinfo"] scenario.cached =
  Returns (models.zero, Some "istio config is forbidden", scenario.tls scenario.client_up)
          (add_events [Call_GetIstioConfigList allNamespacesCriteria] scenario.cached).
Proof.
  eapply (MeshWidemTLSStatus_listing_failure scenario.env_listing_down). reflexivity.
Defined.

(** A [MeshWidemTLSStatus] that returns without error has scored exactly
    once, as its last call.  The input holds no namespace, the peer
    authentications that the filter by the root namespace keeps, the
    destination rules that the filter by [namespaces] keeps and no
    permission for permissive mode; the returned status is the score of that
    input and nothing else; and when the service that comes back holds a
    flag, it is the flag that was scored. *)
Theorem MeshWidemTLSStatus_scores_once env businessLayer in_ namespaces s st in' s' :
  MeshWidemTLSStatus env businessLayer in_ namespaces s = Returns (st, None, in') s' →
  ∃ ms,
    scoring_inputs (new_events s (MeshWidemTLSStatus env businessLayer in_ namespaces s))
      = [ms] ∧
    last (trace s') = Some (Call_MeshMtlsStatus ms) ∧
    mtls.Namespace ms = "" ∧
    mtls.PeerAuthentications ms =
      kubernetes.FilterPeerAuthenticationByNamespace
        (config.RootNamespace (config_Get env))
        (PeerAuthentications
           (GetIstioConfigList env (IstioConfig businessLayer) allNamespacesCriteria).1) ∧
    mtls.DestinationRules ms =
      kubernetes.FilterDestinationRulesByNamespaces namespaces
        (DestinationRules
           (GetIstioConfigList env (IstioConfig businessLayer) allNamespacesCriteria).1) ∧
    mtls.AllowPermissive ms = false ∧
    st = {| models.Namespace_tag := None;
            models.Status := mtls.OverallStatus (MeshMtlsStatus env ms) |} ∧
    ∀ b, enabledAutoMtls in' = Some b → mtls.AutoMtlsEnabled ms = b.
Proof.
  intros Hrun. unfold new_events. rewrite Hrun. simpl. revert Hrun.
  unfold MeshWidemTLSStatus. run.
  destruct (GetIstioConfigList env (IstioConfig businessLayer) allNamespacesCriteria)
    as [cl [e|]]; run; [done|].
  match goal with |- context [hasAutoMTLSEnabled env in_ ?s0] =>
    destruct (hasAutoMTLSEnabled_final env in_ s0) as (evs & Hfin & Hsc);
    destruct (hasAutoMTLSEnabled env in_ s0) as [[b in1] s1|s1] eqn:Hflag
  end; [|done].
  simpl in Hfin; subst s1. intros [= <- <- <-].
  eexists. split.
  { simpl. rewrite <- !app_assoc, drop_app_length, !scoring_inputs_app, Hsc.
    reflexivity. }
  split_and!; try done.
  - simpl. by rewrite last_snoc.
  - intros b' Hb'. simpl.
    destruct (hasAutoMTLSEnabled_sticky_aux _ _ _ _ _ _ Hflag) as [_ Hsame].
    symmetry. by apply Hsame.
Qed.

Lemma MeshWidemTLSStatus_scores_once_witness :
  ∃ ms,
    scoring_inputs
      (new_events scenario.uncached
         (MeshWidemTLSStatus scenario.env_up (scenario.layer scenario.namespaces_up)
            (scenario.tls scenario.client_up) ["bookinfo"] scenario.uncached)) = [ms] ∧
    mtls.PeerAuthentications ms = [scenario.pa "istio-system" "mesh-strict"] ∧
    mtls.DestinationRules ms = [scenario.dr "bookinfo" "reviews"].
Proof.
  edestruct (MeshWidemTLSStatus_scores_once scenario.env_up
               (scenario.layer scenario.namespaces_up) (scenario.tls scenario.client_up)
               ["bookinfo"] scenario.uncached)
    as (ms & Hone & _ & _ & Hpas & Hdrs & _).
  - vm_compute. reflexivity.
  - exists ms. split_and!; [exact Hone|exact Hpas|exact Hdrs].
Defined.

Lemma hasAutoMTLSEnabled_lookup_or_parse_error env in_ s cm err s1 :
  enabledAutoMtls in_ = None →
  lookupIstioConfig env in_ s = Returns (cm, err) s1 →
  is_Some err ∨ is_Some (kubernetes_GetIstioConfigMap env cm).2 →
  ∃ s2, hasAutoMTLSEnabled env in_ s = Returns (true, in_) s2 ∧
        ∃ evs, s2 = add_events evs s ∧ scoring_inputs evs = [].
Proof.
  intros Hnil Hlookup Hfail.
  destruct (lookupIstioConfig_returns _ _ _ _ _ Hlookup) as (evs & -> & _ & Hsc).
  unfold hasAutoMTLSEnabled. rewrite Hnil.
  unfold mbind at 1, M_bind. rewrite Hlookup.
  destruct err as [e|]; run; [by eauto|].
  destruct Hfail as [[? [=]]|[e He]].
  destruct (kubernetes_GetIstioConfigMap env cm) as [mc [e'|]]; run; [|done].
  eexists. split; [done|]. as_add_events. eexists. split; [done|].
  by rewrite scoring_inputs_app, Hsc.
Qed.

(** The fail-open default reaches the score: when both listings succeed and
    the lookup of the config map, or its parsing, ends in an error,
    [NamespaceWidemTLSStatus] still returns a status and no error, scored
    with auto-mTLS taken as enabled. *)
Theorem NamespaceWidemTLSStatus_fails_open env businessLayer in_ namespace s nss cl cm err s1 :
  GetNamespaces (Namespace businessLayer) = (nss, None) →
  GetIstioConfigList env (IstioConfig businessLayer) allNamespacesCriteria = (cl, None) →
  enabledAutoMtls in_ = None →
  lookupIstioConfig env in_
    (add_events [Call_GetNamespaces; Call_GetIstioConfigList allNamespacesCriteria] s)
    = Returns (cm, err) s1 →
  is_Some err ∨ is_Some (kubernetes_GetIstioConfigMap env cm).2 →
  ∃ st s',
    NamespaceWidemTLSStatus env businessLayer in_ namespace s = Returns (st, None) s' ∧
    mtls.AutoMtlsEnabled <$>
      scoring_inputs
        (new_events s (NamespaceWidemTLSStatus env businessLayer in_ namespace s))
    = [true].
Proof.
  intros Hnss Hcl Hnil Hlookup Hfail.
  destruct (hasAutoMTLSEnabled_lookup_or_parse_error _ _ _ _ _ _ Hnil Hlookup Hfail)
    as (s2 & Hflag & evs & -> & Hsc).
  unfold new_events, NamespaceWidemTLSStatus, getNamespaces. run.
  rewrite Hnss. run. rewrite Hcl. run.
  as_add_events.
  change ([Call_GetNamespaces] ++ [Call_GetIstioConfigList allNamespacesCriteria])%list
    with [Call_GetNamespaces; Call_GetIstioConfigList allNamespacesCriteria].
  rewrite Hflag. simpl. eexists _, _. split; [done|].
  rewrite <- !app_assoc, drop_app_length.
  rewrite (scoring_inputs_app [_; _]), scoring_inputs_app, Hsc. done.
Qed.

Lemma NamespaceWidemTLSStatus_fails_open_witness :
  ∃ st s',
    NamespaceWidemTLSStatus scenario.env_up (scenario.layer scenario.namespaces_up)
      (scenario.tls scenario.client_down) "bookinfo" scenario.uncached
    = Returns (st, None) s' ∧
    mtls.AutoMtlsEnabled <$>
      scoring_inputs
        (new_events scenario.uncached
           (NamespaceWidemTLSStatus scenario.env_up (scenario.layer scenario.namespaces_up)
              (scenario.tls scenario.client_down) "bookinfo" scenario.uncached))
    = [true].
Proof.
  eapply (NamespaceWidemTLSStatus_fails_open scenario.env_up
            (scenario.layer scenario.namespaces_up) (scenario.tls scenario.client_down)
            "bookinfo" scenario.uncached _ _ None (Some "connection refused"));
    try reflexivity.
  left. by eexists.
Defined.

(** A [NamespaceWidemTLSStatus] that returns without error after the
    namespaces were listed has scored, as its last call, an input that holds
    the namespace asked for and the destination rules that the filter keeps
    for the names of all listed namespaces, not for the one asked for alone;
    the status is the score of that input and nothing else. *)
Theorem NamespaceWidemTLSStatus_scores_all_namespaces
    env businessLayer in_ namespace s nss st s' :
  GetNamespaces (Namespace businessLayer) = (nss, None) →
  NamespaceWidemTLSStatus env businessLayer in_ namespace s = Returns (st, None) s' →
  ∃ ms,
    last (trace s') = Some (Call_NamespaceMtlsStatus ms) ∧
    mtls.Namespace ms = namespace ∧
    mtls.DestinationRules ms =
      kubernetes.FilterDestinationRulesByNamespaces (models.Name <$> nss)
        (DestinationRules
           (GetIstioConfigList env (IstioConfig businessLayer) allNamespacesCriteria).1) ∧
    mtls.AllowPermissive ms = false ∧
    st = {| models.Namespace_tag := None;
            models.Status := mtls.OverallStatus (NamespaceMtlsStatus env ms) |}.
Proof.
  intros Hnss. unfold NamespaceWidemTLSStatus, getNamespaces. run.
  rewrite Hnss. run. rewrite foldl_snoc_fmap. simpl.
  destruct (GetIstioConfigList env (IstioConfig businessLayer) allNamespacesCriteria)
    as [cl [e|]]; run; [done|].
  destruct (hasAutoMTLSEnabled env in_ _) as [[b in1] s1|s1]; [|done].
  intros [= <- <-]. eexists. split.
  { simpl. rewrite last_snoc. reflexivity. }
  done.
Qed.

Lemma NamespaceWidemTLSStatus_scores_all_namespaces_witness :
  ∃ ms,
    mtls.Namespace ms = "default" ∧
    mtls.DestinationRules ms = [scenario.dr "bookinfo" "reviews"].
Proof.
  edestruct (NamespaceWidemTLSStatus_scores_all_namespaces scenario.env_up
               (scenario.layer scenario.namespaces_up) (scenario.tls scenario.client_up)
               "default" scenario.uncached)
    as (ms & _ & Hns & Hdrs & _).
  - reflexivity.
  - vm_compute. reflexivity.
  - exists ms. split; [exact Hns|exact Hdrs].
Defined.

End business.

(** ** Properties of the login dispatcher *)

Module login_facts.
Import login.

Lemma prefix_append p s :
  String.prefix p s = true ↔ ∃ post, s = p +:+ post.
Proof.
  revert s. induction p as [|a p IH]; intros s.
  - destruct s; simpl; split; eauto.
  - destruct s as [|b s]; simpl.
    + split; [done|]. intros [post Hpost].
      change (String a p +:+ post) with (String a (p +:+ post)) in Hpost. done.
    + destruct (Ascii.ascii_dec a b) as [->|Hne].
      * rewrite IH. split; intros [post Hpost]; exists post.
        -- rewrite Hpost. reflexivity.
        -- change (String b p +:+ post) with (String b (p +:+ post)) in Hpost.
           congruence.
      * split; [done|]. intros [post Hpost].
        change (String a p +:+ post) with (String a (p +:+ post)) in Hpost.
        congruence.
Qed.

Lemma append_nil_l s : "" +:+ s = s.
Proof. done. Qed.

Lemma is_separator_spec c :
  is_separator c = true ↔ String c "" = "#" ∨ String c "" = "&".
Proof.
  unfold is_separator. rewrite orb_true_iff, !String.eqb_eq. done.
Qed.

(** The test of the pattern [/[#&](access_token|id_token)=/] succeeds exactly
    on the strings that hold a [#] or a [&] directly followed by
    [access_token=] or [id_token=]. *)
Theorem pattern_test_spec s :
  pattern_test s = true ↔
  ∃ pre sep key post,
    s = pre +:+ sep +:+ key +:+ "=" +:+ post ∧
    (sep = "#" ∨ sep = "&") ∧ (key = "access_token" ∨ key = "id_token").
Proof.
  split.
  - induction s as [|c s IH]; simpl; [done|].
    rewrite orb_true_iff, andb_true_iff, orb_true_iff, is_separator_spec, !prefix_append.
    intros [[Hsep [[post ->]|[post ->]]]|Hrest].
    + exists "", (String c ""), "access_token", post. split_and!; [done|done|by left].
    + exists "", (String c ""), "id_token", post. split_and!; [done|done|by right].
    + destruct (IH Hrest) as (pre & sep & key & post & -> & Hsep & Hkey).
      by exists (String c pre), sep, key, post.
  - intros (pre & sep & key & post & -> & Hsep & Hkey).
    induction pre as [|c pre IH]; simpl.
    + assert (String.prefix "access_token=" (key +:+ "=" +:+ post) ||
              String.prefix "id_token=" (key +:+ "=" +:+ post) = true) as Hkey'.
      { apply orb_true_iff. rewrite !prefix_append.
        destruct Hkey as [->| ->]; [left|right]; by exists post. }
      destruct Hsep as [->| ->]; simpl; rewrite !append_nil_l; by rewrite Hkey'.
    + rewrite IH. apply orb_true_r.
Qed.

(** Every key of [AuthStrategy] has a strategy in the map: [openshift] and
    [openid] share the OAuth login, and no lookup comes back undefined. *)
Lemma Map_get_total key :
  Map_get key = Some (match key with
                      | anonymous => AnonymousLogin
                      | token => TokenLogin
                      | header => HeaderLogin
                      | openshift | openid => OAuthLogin
                      end).
Proof. by destruct key. Qed.

Lemma prepare_settles_aux info w :
  prepare info w =
    if is_oauth (strategy info) then
      if falsy (authorizationEndpoint info) then Resolved FAILURE
      else if pattern_test (hash w) then Resolved CONTINUE
      else Rejected (Failed FAILURE
                       (Value "Failed to redirect user to authentication page."))
    else Resolved CONTINUE.
Proof.
  unfold prepare. rewrite Map_get_total.
  destruct (strategy info); simpl; try done;
    destruct (falsy (authorizationEndpoint info)); try done;
    by destruct (pattern_test (hash w)).
Qed.

(** How [LoginDispatcher.prepare] settles.  It resolves with [CONTINUE] for
    the anonymous, token and header strategies, whatever the address and the
    configuration.  For the two OAuth strategies it resolves with [FAILURE]
    when no authorization endpoint is configured, resolves with [CONTINUE]
    when the fragment of the address holds a token, and is otherwise
    rejected with status [FAILURE].  It never settles with [HOLD]. *)
Theorem prepare_settles info w :
  prepare info w =
    if is_oauth (strategy info) then
      if falsy (authorizationEndpoint info) then Resolved FAILURE
      else if pattern_test (hash w) then Resolved CONTINUE
      else Rejected (Failed FAILURE
                       (Value "Failed to redirect user to authentication page."))
    else Resolved CONTINUE.
Proof. apply prepare_settles_aux. Qed.


(** After an OAuth login that the backend accepts, the token is gone from
    the address: the fragment is empty, path and query are as before, and a
    [prepare] on the new address no longer continues. *)
Theorem perform_oauth_clears_the_fragment api info data w s :
  is_oauth (strategy info) = true →
  API_checkOpenshiftAuth api (substring_1 (hash w)) = Resolved s →
  perform api info data w =
    (Resolved {| status := SUCCESS; session := Some s |},
     {| hash := ""; pathname := pathname w; search := search w |}) ∧
  prepare info (perform api info data w).2 ≠ Resolved CONTINUE.
Proof.
  intros Hoauth Hcheck.
  assert (perform api info data w =
          (Resolved {| status := SUCCESS; session := Some s |}, replaceState w)) as Hrun.
  { unfold perform. rewrite Map_get_total.
    destruct (strategy info); try done; simpl; by rewrite Hcheck. }
  split; [done|]. rewrite Hrun, prepare_settles_aux, Hoauth. simpl.
  by destruct (falsy (authorizationEndpoint info)).
Qed.

Lemma perform_oauth_clears_the_fragment_witness :
  perform backend openshift_config (mkWebLoginData "" "") (redirected "good") =
  (Resolved {| status := SUCCESS;
               session := Some {| username := "alice";
                                  expiresOn := "2030-01-01T00:00:00.000Z" |} |},
   {| hash := ""; pathname := "/console/"; search := "?lang=en" |}).
Proof.
  eapply (proj1 (perform_oauth_clears_the_fragment backend openshift_config
                   (mkWebLoginData "" "") (redirected "good") _ eq_refl eq_refl)).
Defined.

(** When the backend rejects the OAuth login, the body of the strategy stops
    at the [await]: the address is not replaced, the token stays in the
    fragment, and a [prepare] on it answers as before the attempt. *)
Theorem perform_oauth_rejection_keeps_the_fragment api info data w r :
  is_oauth (strategy info) = true →
  API_checkOpenshiftAuth api (substring_1 (hash w)) = Rejected r →
  perform api info data w = (Rejected (Failed FAILURE r), w) ∧
  prepare info (perform api info data w).2 = prepare info w.
Proof.
  intros Hoauth Hcheck.
  assert (perform api info data w = (Rejected (Failed FAILURE r), w)) as Hrun.
  { unfold perform. rewrite Map_get_total.
    destruct (strategy info); try done; simpl; by rewrite Hcheck. }
  split; [done|]. by rewrite Hrun.
Qed.

Lemma perform_oauth_rejection_keeps_the_fragment_witness :
  perform backend openshift_config (mkWebLoginData "" "") (redirected "stale") =
    (Rejected (Failed FAILURE (Value "401")), redirected "stale") ∧
  prepare openshift_config
    (perform backend openshift_config (mkWebLoginData "" "") (redirected "stale")).2
  = Resolved CONTINUE.
Proof.
  destruct (perform_oauth_rejection_keeps_the_fragment backend openshift_config
              (mkWebLoginData "" "") (redirected "stale") (Value "401") eq_refl eq_refl)
    as [Hrun Hprepare].
  split; [exact Hrun|]. rewrite Hprepare. reflexivity.
Defined.

End login_facts.
